(** * Shelf pattern store: relevance search, reinforcement and extraction

    A shallow embedding of the TypeScript pattern store of the repository
    (the file-backed [PatternStore], the PostgreSQL-backed [PatternStore]
    and the [PatternExtractor]) together with the properties of its
    scoring, reinforcement and extraction algorithms.

    Modelling conventions.
    - JavaScript numbers that carry scores and confidences are exact
      rationals ([Q]); counters and timestamps are integers ([Z]).
    - JavaScript strings are sequences of 8-bit characters ([string]);
      [toLowerCase] acts on the letters A-Z and the whitespace class of
      the regular expression [\s] is tab, line feed, vertical tab, form
      feed, carriage return and space.
    - [Map] and [Set] keep their insertion order, so they are association
      lists and duplicate-free lists.
    - [new Date()] and [CURRENT_TIMESTAMP] read a clock that is passed to
      the operations as the argument [now].
    - A [NUMERIC(3,2)] column holds an integer number of hundredths. *)

From Stdlib Require Import List String Ascii Bool Arith ZArith QArith Lia Lqa.
From Stdlib Require Import Permutation Sorted Qminmax.
Import ListNotations.

Set Implicit Arguments.

(** ** JavaScript primitives *)

Module JS.

Open Scope string_scope.

Definition lower_char (c : ascii) : ascii :=
    let n := nat_of_ascii c in
    if ((65 <=? n) && (n <=? 90))%nat then ascii_of_nat (n + 32) else c.

  (** [String.prototype.toLowerCase] *)
Fixpoint toLowerCase (s : string) : string :=
    match s with
    | EmptyString => EmptyString
    | String c r => String (lower_char c) (toLowerCase r)
    end.

Fixpoint startsWith (s t : string) : bool :=
    match t, s with
    | EmptyString, _ => true
    | String _ _, EmptyString => false
    | String b t', String a s' => Ascii.eqb a b && startsWith s' t'
    end.

  (** [s.includes(t)]: [t] occurs in [s] as a substring. *)
Fixpoint includes (s t : string) : bool :=
    startsWith s t ||
    match s with
    | EmptyString => false
    | String _ s' => includes s' t
    end.

  (** The character class [\s]. *)
Definition is_space (c : ascii) : bool :=
    let n := nat_of_ascii c in
    ((9 <=? n) && (n <=? 13) || (n =? 32))%nat.

  (** [s.split(/\s+/)]: the pieces between maximal runs of whitespace.
      [cur] is the piece being read, [in_run] tells that the previous
      character was whitespace.  A run at either end of the string
      leaves an empty piece there, and the empty string splits into one
      empty piece. *)
Fixpoint split_from (s : string) (cur : string) (in_run : bool) : list string :=
    match s with
    | EmptyString => [cur]
    | String c r =>
        if is_space c then
          if in_run then split_from r EmptyString true
          else cur :: split_from r EmptyString true
        else split_from r (cur ++ String c EmptyString) false
    end.

Definition split_ws (s : string) : list string :=
    split_from s EmptyString false.

  (** [l.join(sep)] *)
Definition join (sep : string) (l : list string) : string :=
    String.concat sep l.

  (** [new Set(l)] enumerated: the elements of [l] in order of first
      occurrence. *)
Fixpoint Set_of (acc l : list string) : list string :=
    match l with
    | [] => acc
    | x :: r =>
        if existsb (String.eqb x) acc then Set_of acc r
        else Set_of (acc ++ [x]) r
    end.

Definition new_Set (l : list string) : list string := Set_of [] l.

  (** [set.has(w)] *)
Definition has (set : list string) (w : string) : bool :=
    existsb (String.eqb w) set.

  (** [l.slice(0, n)] for an integer [n]: a negative [n] counts from the
      end of the array. *)
Definition slice0 (A : Type) (n : Z) (l : list A) : list A :=
    if (n <? 0)%Z
    then firstn (Z.to_nat (Z.max (Z.of_nat (List.length l) + n) 0)) l
    else firstn (Z.to_nat n) l.

  (** [Math.min] and [Math.max] *)
Definition Math_min (a b : Q) : Q := if Qle_bool a b then a else b.
Definition Math_max (a b : Q) : Q := if Qle_bool a b then b else a.

  (** [Map<string, V>]: keys in insertion order. *)
Section MapOps.
Variable V : Type.

Fixpoint Map_get (m : list (string * V)) (k : string) : option V :=
      match m with
      | [] => None
      | (k', v) :: r => if String.eqb k k' then Some v else Map_get r k
      end.

Fixpoint Map_set (m : list (string * V)) (k : string) (v : V)
      : list (string * V) :=
      match m with
      | [] => [(k, v)]
      | (k', v') :: r =>
          if String.eqb k k' then (k', v) :: r
          else (k', v') :: Map_set r k v
      end.

Definition Map_values (m : list (string * V)) : list V := map snd m.
Definition Map_entries (m : list (string * V)) : list (string * V) := m.
End MapOps.

  (** [arr.sort((a, b) => key(b) - key(a))]: the stable sort by
      descending key. *)
Section Sort.
Variable A : Type.
Variable key : A -> Q.

Fixpoint insert_desc (x : A) (l : list A) : list A :=
      match l with
      | [] => [x]
      | y :: r =>
          if Qle_bool (key y) (key x) then x :: y :: r
          else y :: insert_desc x r
      end.

Definition sort_desc (l : list A) : list A :=
      fold_right insert_desc [] l.
End Sort.

End JS.

(** ** The entities of [types.ts] *)

Inductive Outcome : Type := success | failure | partial.

Inductive RelationType : Type := leads_to | refined_by | conflicts_with | requires.

Record PatternExample : Type := mkExample {
  input : string;
  output : string;
  ex_outcome : Outcome
}.

Record PatternRelation : Type := mkRelation {
  type : RelationType;
  patternId : string;
  strength : Q
}.

Module Pattern.
Record t : Type := mk {
  id : string;
  name : string;
  context : list string;
  problem : string;
  solution : string;
  examples : list PatternExample;
  relations : list PatternRelation;
  confidence : Q;
  usageCount : Z;
  createdAt : Z;
  lastUsedAt : option Z
}.
End Pattern.

Module Episode.
Record t : Type := mk {
  id : string;
  timestamp : Z;
  context : string;
  actions : list string;
  outcome : string;
  patternIds : list string
}.
End Episode.

Record PatternSearchResult : Type := mkResult {
  pattern : Pattern.t;
  relevance : Q;
  reason : string
}.

(** ** [PatternExtractor] *)

Module PatternExtractor.

Open Scope string_scope.

Definition arrow : string := " → ".

(** [categorizeOutcome] *)
Definition categorizeOutcome (outcome : string) : Outcome :=
  let lower := JS.toLowerCase outcome in
  if JS.includes lower "success" || JS.includes lower "understood" ||
     JS.includes lower "completed" || JS.includes lower "solved"
  then success
  else if JS.includes lower "fail" || JS.includes lower "error" ||
          JS.includes lower "confused" || JS.includes lower "stuck"
  then failure
  else partial.

Definition is_success (o : Outcome) : bool :=
  match o with success => true | _ => false end.

(** [(m.get(k) || 0) + 1] *)
Definition bump (m : list (string * nat)) (k : string) : list (string * nat) :=
  JS.Map_set m k (match JS.Map_get m k with Some n => n | None => 0 end + 1)%nat.

(** The loop that fills [contextCounts]. *)
Definition countWord (counts : list (string * nat)) (word : string)
  : list (string * nat) :=
  if (3 <? String.length word)%nat then bump counts word else counts.

Definition countEpisode (counts : list (string * nat)) (ep : Episode.t)
  : list (string * nat) :=
  fold_left countWord (JS.split_ws (JS.toLowerCase (Episode.context ep))) counts.

Definition contextCounts (episodes : list Episode.t) : list (string * nat) :=
  fold_left countEpisode episodes [].

Definition at_least (threshold : Q) (entry : string * nat) : bool :=
  Qle_bool threshold (inject_Z (Z.of_nat (snd entry))).

Definition commonContext (episodes : list Episode.t) : list string :=
  let threshold := inject_Z (Z.of_nat (List.length episodes)) * 0.5 in
  JS.slice0 5 (map fst (filter (at_least threshold)
                          (JS.Map_entries (contextCounts episodes)))).

(** The strings ["a_i → a_(i+1)"] of one episode, for [i] from [0] to
    [actions.length - 2]. *)
Fixpoint sequences (actions : list string) : list string :=
  match actions with
  | a :: (b :: _) as r => (a ++ arrow ++ b) :: sequences r
  | _ => []
  end.

(** [findCommonActionPatterns] *)
Definition findCommonActionPatterns (episodes : list Episode.t) : list string :=
  let actionSequences :=
    fold_left (fun m ep => fold_left bump (sequences (Episode.actions ep)) m)
              episodes [] in
  let threshold := inject_Z (Z.of_nat (List.length episodes)) * 0.3 in
  JS.slice0 3 (map fst (filter (at_least threshold)
                          (JS.Map_entries actionSequences))).

Definition successful (ep : Episode.t) : bool :=
  is_success (categorizeOutcome (Episode.outcome ep)).

(** [generateSolution] *)
Definition generateSolution (actionPatterns : list string)
  (episodes : list Episode.t) : string :=
  match actionPatterns with
  | first :: _ => "Apply the following action sequence: " ++ first
  | [] =>
      match filter successful episodes with
      | firstSuccess :: _ =>
          "Follow approach: " ++ JS.join ", then " (Episode.actions firstSuccess)
      | [] => "Analyze the context and apply appropriate actions based on examples"
      end
  end.

(** [s.replace(/\s+/g, '-')] *)
Fixpoint hyphenate (s : string) (in_run : bool) : string :=
  match s with
  | EmptyString => EmptyString
  | String c r =>
      if JS.is_space c then
        if in_run then hyphenate r true else String "-" (hyphenate r true)
      else String c (hyphenate r false)
  end.

Definition id_char (c : ascii) : bool :=
  let n := nat_of_ascii c in
  ((97 <=? n) && (n <=? 122) || (48 <=? n) && (n <=? 57) || (n =? 45))%nat.

(** [s.replace(/[^a-z0-9-]/g, '')] *)
Fixpoint strip (s : string) : string :=
  match s with
  | EmptyString => EmptyString
  | String c r => if id_char c then String c (strip r) else strip r
  end.

(** [generatePatternId] *)
Definition generatePatternId (name : string) : string :=
  strip (hyphenate (JS.toLowerCase name) false).

Definition toExample (ep : Episode.t) : PatternExample :=
  {| input := Episode.context ep;
     output := JS.join arrow (Episode.actions ep);
     ex_outcome := categorizeOutcome (Episode.outcome ep) |}.

Definition successRate (episodes : list Episode.t) : Q :=
  inject_Z (Z.of_nat (List.length (filter successful episodes)))
  / inject_Z (Z.of_nat (List.length episodes)).

(** [extractPattern]; [None] is the [null] result. *)
Definition extractPattern (now : Z) (episodes : list Episode.t)
  (name problemStatement : string) : option Pattern.t :=
  if (List.length episodes <? 2)%nat then None
  else
    let common := commonContext episodes in
    let actionPatterns := findCommonActionPatterns episodes in
    Some {| Pattern.id := generatePatternId name;
            Pattern.name := name;
            Pattern.context :=
              if (0 <? List.length common)%nat then common else ["general"];
            Pattern.problem := problemStatement;
            Pattern.solution := generateSolution actionPatterns episodes;
            Pattern.examples := map toExample (JS.slice0 3 episodes);
            Pattern.relations := [];
            Pattern.confidence := JS.Math_min 0.9 (successRate episodes);
            Pattern.usageCount := 0;
            Pattern.createdAt := now;
            Pattern.lastUsedAt := None |}.

(** [findRelatedPatterns] *)
Definition findRelatedPatterns (p : Pattern.t) (allPatterns : list Pattern.t)
  : list string :=
  map Pattern.id
    (filter (fun other =>
               negb (String.eqb (Pattern.id other) (Pattern.id p)) &&
               (0 <? List.length
                  (filter (fun c =>
                             existsb (fun oc => JS.includes oc c || JS.includes c oc)
                                     (Pattern.context other))
                          (Pattern.context p)))%nat)
            allPatterns).

End PatternExtractor.

(** ** The search loop of [searchPatterns]

    The body of [searchPatterns] is the same text in both stores; they
    differ in where the patterns come from. *)

Module Search.

Open Scope string_scope.

(** One turn of [for (const patternContext of pattern.context)]: the
    accumulator is [(relevance, matchedContexts)]. *)
Definition scanTag (contextLower : string) (acc : Q * list string)
  (patternContext : string) : Q * list string :=
  if JS.includes contextLower (JS.toLowerCase patternContext)
  then (fst acc + 0.3, (snd acc ++ [patternContext])%list)
  else acc.

Definition nameBonus (contextLower : string) (p : Pattern.t) : Q :=
  if JS.includes contextLower (JS.toLowerCase (Pattern.name p)) then 0.2 else 0.

Definition problemBonus (contextLower : string) (p : Pattern.t) : Q :=
  if JS.includes (JS.toLowerCase (Pattern.problem p)) contextLower ||
     JS.includes contextLower (JS.toLowerCase (Pattern.problem p))
  then 0.2 else 0.

(** The value of [relevance] before [relevance *= pattern.confidence]. *)
Definition rawScore (context : string) (p : Pattern.t) : Q :=
  let contextLower := JS.toLowerCase context in
  fst (fold_left (scanTag contextLower) (Pattern.context p) (0, []))
  + nameBonus contextLower p + problemBonus contextLower p.

Definition matchedContexts (context : string) (p : Pattern.t) : list string :=
  snd (fold_left (scanTag (JS.toLowerCase context)) (Pattern.context p) (0, [])).

(** The body of the loop over the patterns: [Some] is a [results.push]. *)
Definition visit (context : string) (p : Pattern.t) : option PatternSearchResult :=
  let relevance := rawScore context p * Pattern.confidence p in
  if negb (Qle_bool relevance 0) then
    Some {| pattern := p;
            relevance := JS.Math_min relevance 1.0;
            reason :=
              if (0 <? List.length (matchedContexts context p))%nat
              then "Matches contexts: " ++ JS.join ", " (matchedContexts context p)
              else "Partial match on name or problem" |}
  else None.

Fixpoint collect (context : string) (patterns : list Pattern.t)
  : list PatternSearchResult :=
  match patterns with
  | [] => []
  | p :: r =>
      match visit context p with
      | Some res => res :: collect context r
      | None => collect context r
      end
  end.

Definition searchPatterns (patterns : list Pattern.t) (context : string)
  : list PatternSearchResult :=
  JS.sort_desc relevance (collect context patterns).

End Search.

(** The two seed patterns of [initializeWithSamplePatterns]. *)

Module Samples.

Open Scope string_scope.

Definition progressive_disclosure (now : Z) : Pattern.t :=
  {| Pattern.id := "progressive-disclosure";
     Pattern.name := "Progressive Disclosure";
     Pattern.context := ["user is learning"; "complex topic"; "beginner level"];
     Pattern.problem := "Too much information at once overwhelms the learner";
     Pattern.solution := "Reveal complexity gradually, starting with core concepts";
     Pattern.examples :=
       [ {| input := "Explain recursion";
            output := "Start with simple counting down, then factorial, then tree traversal";
            ex_outcome := success |} ];
     Pattern.relations := [];
     Pattern.confidence := 0.85;
     Pattern.usageCount := 0;
     Pattern.createdAt := now;
     Pattern.lastUsedAt := None |}.

Definition concrete_before_abstract (now : Z) : Pattern.t :=
  {| Pattern.id := "concrete-before-abstract";
     Pattern.name := "Concrete Before Abstract";
     Pattern.context := ["teaching concept"; "abstract idea"; "user struggling"];
     Pattern.problem := "Abstract concepts are hard to grasp without grounding";
     Pattern.solution := "Provide concrete examples before explaining the abstraction";
     Pattern.examples :=
       [ {| input := "Explain interfaces";
            output := "Show USB ports, electrical outlets, then programming interfaces";
            ex_outcome := success |} ];
     Pattern.relations :=
       [ {| type := leads_to; patternId := "progressive-disclosure"; strength := 0.7 |} ];
     Pattern.confidence := 0.9;
     Pattern.usageCount := 0;
     Pattern.createdAt := now;
     Pattern.lastUsedAt := None |}.

Definition samplePatterns (now : Z) : list Pattern.t :=
  [progressive_disclosure now; concrete_before_abstract now].

End Samples.

(** ** The file-backed [PatternStore] ([patternStore.ts])

    The state is the pair of in-memory maps; [saveToDisk] writes a
    snapshot of them and does not change them. *)

Module FileStore.

Open Scope string_scope.

Record t : Type := mk {
  patterns : list (string * Pattern.t);
  episodes : list (string * Episode.t)
}.

Definition empty : t := {| patterns := []; episodes := [] |}.

Definition initializeWithSamplePatterns (now : Z) (st : t) : t :=
  {| patterns :=
       fold_left (fun m p => JS.Map_set m (Pattern.id p) p)
                 (Samples.samplePatterns now) (patterns st);
     episodes := episodes st |}.

(** [initialize], after [loadFromDisk] has produced [loaded]. *)
Definition initialize (now : Z) (loaded : t) : t :=
  if (List.length (patterns loaded) =? 0)%nat
  then initializeWithSamplePatterns now loaded
  else loaded.

Definition savePattern (st : t) (p : Pattern.t) : t :=
  {| patterns := JS.Map_set (patterns st) (Pattern.id p) p;
     episodes := episodes st |}.

Definition getPattern (st : t) (id : string) : option Pattern.t :=
  JS.Map_get (patterns st) id.

Definition getAllPatterns (st : t) : list Pattern.t :=
  JS.Map_values (patterns st).

Definition searchPatterns (st : t) (context : string)
  : list PatternSearchResult :=
  Search.searchPatterns (JS.Map_values (patterns st)) context.

Definition touch (now : Z) (p : Pattern.t) : Pattern.t :=
  {| Pattern.id := Pattern.id p;
     Pattern.name := Pattern.name p;
     Pattern.context := Pattern.context p;
     Pattern.problem := Pattern.problem p;
     Pattern.solution := Pattern.solution p;
     Pattern.examples := Pattern.examples p;
     Pattern.relations := Pattern.relations p;
     Pattern.confidence := Pattern.confidence p;
     Pattern.usageCount := Pattern.usageCount p + 1;
     Pattern.createdAt := Pattern.createdAt p;
     Pattern.lastUsedAt := Some now |}.

(** [applyPattern]: the object held by the map is updated in place and
    returned. *)
Definition applyPattern (now : Z) (st : t) (patternId : string)
  : option Pattern.t * t :=
  match JS.Map_get (patterns st) patternId with
  | Some p =>
      (Some (touch now p),
       {| patterns := JS.Map_set (patterns st) patternId (touch now p);
          episodes := episodes st |})
  | None => (None, st)
  end.

Definition adjust (success : bool) (p : Pattern.t) : Pattern.t :=
  let adjustment := if success then 0.05 else - 0.02 in
  {| Pattern.id := Pattern.id p;
     Pattern.name := Pattern.name p;
     Pattern.context := Pattern.context p;
     Pattern.problem := Pattern.problem p;
     Pattern.solution := Pattern.solution p;
     Pattern.examples := Pattern.examples p;
     Pattern.relations := Pattern.relations p;
     Pattern.confidence :=
       JS.Math_max 0.1 (JS.Math_min 1.0 (Pattern.confidence p + adjustment));
     Pattern.usageCount := Pattern.usageCount p;
     Pattern.createdAt := Pattern.createdAt p;
     Pattern.lastUsedAt := Pattern.lastUsedAt p |}.

Definition reinforcePattern (st : t) (patternId : string) (success : bool) : t :=
  match JS.Map_get (patterns st) patternId with
  | Some p =>
      {| patterns := JS.Map_set (patterns st) patternId (adjust success p);
         episodes := episodes st |}
  | None => st
  end.

Definition saveEpisode (st : t) (e : Episode.t) : t :=
  {| patterns := patterns st;
     episodes := JS.Map_set (episodes st) (Episode.id e) e |}.

(** The [score] that [findSimilarEpisodes] gives to one episode. *)
Definition commonWords (contextLower episodeContextLower : string) : list string :=
  let contextWords := JS.new_Set (JS.split_ws contextLower) in
  let episodeWords := JS.new_Set (JS.split_ws episodeContextLower) in
  filter (JS.has episodeWords) contextWords.

Definition score (context : string) (episode : Episode.t) : Q :=
  let contextLower := JS.toLowerCase context in
  let episodeContextLower := JS.toLowerCase (Episode.context episode) in
  (if JS.includes episodeContextLower contextLower ||
      JS.includes contextLower episodeContextLower
   then 0.5 else 0)
  + inject_Z (Z.of_nat (List.length (commonWords contextLower episodeContextLower)))
    * 0.1.

Definition findSimilarEpisodes (st : t) (context : string) (limit : Z)
  : list Episode.t :=
  let scored := map (fun episode => (episode, score context episode))
                    (JS.Map_values (episodes st)) in
  map fst
    (filter (fun item => negb (Qle_bool (snd item) 0))
       (JS.slice0 limit (JS.sort_desc snd scored))).

Definition default_limit : Z := 5.

Fixpoint lookupAll (m : list (string * Episode.t)) (ids : list string)
  : list Episode.t :=
  match ids with
  | [] => []
  | i :: r =>
      match JS.Map_get m i with
      | Some e => e :: lookupAll m r
      | None => lookupAll m r
      end
  end.

Definition leadsTo (id : string) : PatternRelation :=
  {| type := leads_to; patternId := id; strength := 0.5 |}.

Definition withRelations (p : Pattern.t) (rs : list PatternRelation) : Pattern.t :=
  {| Pattern.id := Pattern.id p;
     Pattern.name := Pattern.name p;
     Pattern.context := Pattern.context p;
     Pattern.problem := Pattern.problem p;
     Pattern.solution := Pattern.solution p;
     Pattern.examples := Pattern.examples p;
     Pattern.relations := rs;
     Pattern.confidence := Pattern.confidence p;
     Pattern.usageCount := Pattern.usageCount p;
     Pattern.createdAt := Pattern.createdAt p;
     Pattern.lastUsedAt := Pattern.lastUsedAt p |}.

(** [extractPatternFromEpisodes]; [None] is the [null] result. *)
Definition extractPatternFromEpisodes (now : Z) (st : t)
  (episodeIds : list string) (patternName problemStatement : string)
  : option Pattern.t * t :=
  let eps := lookupAll (episodes st) episodeIds in
  if (List.length eps <? 2)%nat then (None, st)
  else
    match PatternExtractor.extractPattern now eps patternName problemStatement with
    | Some p =>
        let allPatterns := JS.Map_values (patterns st) in
        let relatedIds := PatternExtractor.findRelatedPatterns p allPatterns in
        let p' := withRelations p (map leadsTo relatedIds) in
        (Some p', savePattern st p')
    | None => (None, st)
    end.

End FileStore.

(** ** The PostgreSQL-backed [PatternStore] ([patternStorePostgres.ts])

    The state is the content of the two tables of [schema.sql].  A
    statement that the engine rejects is an [Err] result: it is the
    exception that [db.query] throws. *)

Inductive Result (A : Type) : Type :=
| Ok (a : A)
| Err (msg : string).

Arguments Ok {A} a.
Arguments Err {A} msg.

Module Sql.

Open Scope string_scope.

(** [text LIKE pat] with the default escape character: [%] matches any
    run of characters, [_] one character, a backslash takes the next
    pattern character literally.  [None] is the engine's error for a
    pattern that ends with the escape character. *)
Fixpoint like (pat : string) : string -> option bool :=
  match pat with
  | EmptyString =>
      fun text => Some (match text with EmptyString => true | _ => false end)
  | String c pat' =>
      if Ascii.eqb c "%" then
        fix star (text : string) : option bool :=
          match like pat' text with
          | Some false =>
              match text with
              | EmptyString => Some false
              | String _ text' => star text'
              end
          | r => r
          end
      else if Ascii.eqb c "_" then
        fun text =>
          match text with
          | EmptyString => Some false
          | String _ text' => like pat' text'
          end
      else if Ascii.eqb c "\" then
        match pat' with
        | EmptyString =>
            fun text =>
              match text with EmptyString => Some false | _ => None end
        | String e pat'' =>
            fun text =>
              match text with
              | EmptyString => Some false
              | String a text' =>
                  if Ascii.eqb a e then like pat'' text' else Some false
              end
        end
      else
        fun text =>
          match text with
          | EmptyString => Some false
          | String a text' =>
              if Ascii.eqb a c then like pat' text' else Some false
          end
  end.

(** [a OR b], evaluated from the left. *)
Definition or_else (a b : option bool) : option bool :=
  match a with
  | Some true => Some true
  | Some false => b
  | None => None
  end.

(** [SELECT ... WHERE cond]: the rows, in table order, on which [cond]
    holds; an error on any row fails the statement. *)
Fixpoint select_where (A : Type) (cond : A -> option bool) (rows : list A)
  : option (list A) :=
  match rows with
  | [] => Some []
  | r :: rest =>
      match cond r, select_where cond rest with
      | Some true, Some l => Some (r :: l)
      | Some false, Some l => Some l
      | _, _ => None
      end
  end.

(** Rounding to the nearest integer, ties away from zero: the rounding
    of a [NUMERIC] to its scale. *)
Definition round_half_away (q : Q) : Z :=
  let n := Qnum q in
  let d := Zpos (Qden q) in
  if (n <? 0)%Z then (- ((2 * - n + d) / (2 * d)))%Z
  else ((2 * n + d) / (2 * d))%Z.

(** The value of type [DECIMAL(3,2)] for a number, in hundredths;
    [None] is a numeric field overflow. *)
Definition decimal_3_2 (q : Q) : option Z :=
  let h := round_half_away (q * 100) in
  if (Z.abs h <? 1000)%Z then Some h else None.

End Sql.

Module PostgresStore.

Open Scope string_scope.

Module Patterns.
Record row : Type := mk {
  id : string;
  name : string;
  context : list string;
  problem : string;
  solution : string;
  examples : list PatternExample;
  relations : list PatternRelation;
  confidence : Z;
  usage_count : Z;
  created_at : Z;
  last_used_at : option Z;
  updated_at : Z
}.
End Patterns.

Module Episodes.
Record row : Type := mk {
  id : string;
  timestamp : Z;
  context : string;
  actions : list string;
  outcome : string;
  pattern_ids : list string;
  created_at : Z
}.
End Episodes.

Record t : Type := mk {
  patterns : list Patterns.row;
  episodes : list Episodes.row
}.

Definition empty : t := {| patterns := []; episodes := [] |}.

(** [rowToPattern] *)
Definition rowToPattern (r : Patterns.row) : Pattern.t :=
  {| Pattern.id := Patterns.id r;
     Pattern.name := Patterns.name r;
     Pattern.context := Patterns.context r;
     Pattern.problem := Patterns.problem r;
     Pattern.solution := Patterns.solution r;
     Pattern.examples := Patterns.examples r;
     Pattern.relations := Patterns.relations r;
     Pattern.confidence := inject_Z (Patterns.confidence r) / 100;
     Pattern.usageCount := Patterns.usage_count r;
     Pattern.createdAt := Patterns.created_at r;
     Pattern.lastUsedAt := Patterns.last_used_at r |}.

(** [rowToEpisode] *)
Definition rowToEpisode (r : Episodes.row) : Episode.t :=
  {| Episode.id := Episodes.id r;
     Episode.timestamp := Episodes.timestamp r;
     Episode.context := Episodes.context r;
     Episode.actions := Episodes.actions r;
     Episode.outcome := Episodes.outcome r;
     Episode.patternIds := Episodes.pattern_ids r |}.

(** [INSERT INTO patterns ... ON CONFLICT (id) DO UPDATE SET ...]: an
    existing row keeps [created_at]; the trigger stamps [updated_at]. *)
Fixpoint upsertPattern (now : Z) (h : Z) (p : Pattern.t)
  (rows : list Patterns.row) : list Patterns.row :=
  match rows with
  | [] =>
      [ {| Patterns.id := Pattern.id p;
           Patterns.name := Pattern.name p;
           Patterns.context := Pattern.context p;
           Patterns.problem := Pattern.problem p;
           Patterns.solution := Pattern.solution p;
           Patterns.examples := Pattern.examples p;
           Patterns.relations := Pattern.relations p;
           Patterns.confidence := h;
           Patterns.usage_count := Pattern.usageCount p;
           Patterns.created_at := Pattern.createdAt p;
           Patterns.last_used_at := Pattern.lastUsedAt p;
           Patterns.updated_at := now |} ]
  | r :: rest =>
      if String.eqb (Patterns.id r) (Pattern.id p) then
        {| Patterns.id := Patterns.id r;
           Patterns.name := Pattern.name p;
           Patterns.context := Pattern.context p;
           Patterns.problem := Pattern.problem p;
           Patterns.solution := Pattern.solution p;
           Patterns.examples := Pattern.examples p;
           Patterns.relations := Pattern.relations p;
           Patterns.confidence := h;
           Patterns.usage_count := Pattern.usageCount p;
           Patterns.created_at := Patterns.created_at r;
           Patterns.last_used_at := Pattern.lastUsedAt p;
           Patterns.updated_at := now |} :: rest
      else r :: upsertPattern now h p rest
  end.

(** [savePattern]: the columns [id] and [name] are [VARCHAR(255)], the
    column [confidence] is [DECIMAL(3,2)] with
    [CHECK (confidence >= 0 AND confidence <= 1)]. *)
Definition savePattern (now : Z) (db : t) (p : Pattern.t) : Result t :=
  if (255 <? String.length (Pattern.id p))%nat
  then Err "value too long for type character varying(255)"
  else if (255 <? String.length (Pattern.name p))%nat
  then Err "value too long for type character varying(255)"
  else
    match Sql.decimal_3_2 (Pattern.confidence p) with
    | None => Err "numeric field overflow"
    | Some h =>
        if ((0 <=? h) && (h <=? 100))%Z
        then Ok {| patterns := upsertPattern now h p (patterns db);
                   episodes := episodes db |}
        else Err "violates check constraint"
    end.

(** [SELECT * FROM patterns WHERE id = $1] *)
Definition getPattern (db : t) (id : string) : option Pattern.t :=
  match filter (fun r => String.eqb (Patterns.id r) id) (patterns db) with
  | [] => None
  | r :: _ => Some (rowToPattern r)
  end.

(** [SELECT * FROM patterns ORDER BY confidence DESC]; rows of equal
    confidence come in table order. *)
Definition getAllPatterns (db : t) : list Pattern.t :=
  map rowToPattern
    (JS.sort_desc (fun r => inject_Z (Patterns.confidence r)) (patterns db)).

Definition searchPatterns (db : t) (context : string)
  : list PatternSearchResult :=
  Search.searchPatterns (getAllPatterns db) context.

Definition touchRow (now : Z) (r : Patterns.row) : Patterns.row :=
  {| Patterns.id := Patterns.id r;
     Patterns.name := Patterns.name r;
     Patterns.context := Patterns.context r;
     Patterns.problem := Patterns.problem r;
     Patterns.solution := Patterns.solution r;
     Patterns.examples := Patterns.examples r;
     Patterns.relations := Patterns.relations r;
     Patterns.confidence := Patterns.confidence r;
     Patterns.usage_count := Patterns.usage_count r + 1;
     Patterns.created_at := Patterns.created_at r;
     Patterns.last_used_at := Some now;
     Patterns.updated_at := now |}.

(** [UPDATE patterns SET ... WHERE id = $1] *)
Definition update_where (f : Patterns.row -> Patterns.row) (id : string)
  (rows : list Patterns.row) : list Patterns.row :=
  map (fun r => if String.eqb (Patterns.id r) id then f r else r) rows.

(** [applyPattern]: the [UPDATE ... RETURNING *]. *)
Definition applyPattern (now : Z) (db : t) (patternId : string)
  : option Pattern.t * t :=
  let db' := {| patterns := update_where (touchRow now) patternId (patterns db);
                episodes := episodes db |} in
  match filter (fun r => String.eqb (Patterns.id r) patternId) (patterns db') with
  | [] => (None, db')
  | r :: _ => (Some (rowToPattern r), db')
  end.

(** [LEAST(1.0, GREATEST(0.1, confidence + $1))] on hundredths; [$1] is
    [0.05] or [-0.02]. *)
Definition adjustRow (now : Z) (success : bool) (r : Patterns.row) : Patterns.row :=
  let adjustment := if success then 5%Z else (-2)%Z in
  {| Patterns.id := Patterns.id r;
     Patterns.name := Patterns.name r;
     Patterns.context := Patterns.context r;
     Patterns.problem := Patterns.problem r;
     Patterns.solution := Patterns.solution r;
     Patterns.examples := Patterns.examples r;
     Patterns.relations := Patterns.relations r;
     Patterns.confidence :=
       Z.min 100 (Z.max 10 (Patterns.confidence r + adjustment));
     Patterns.usage_count := Patterns.usage_count r;
     Patterns.created_at := Patterns.created_at r;
     Patterns.last_used_at := Patterns.last_used_at r;
     Patterns.updated_at := now |}.

Definition reinforcePattern (now : Z) (db : t) (patternId : string)
  (success : bool) : t :=
  {| patterns := update_where (adjustRow now success) patternId (patterns db);
     episodes := episodes db |}.

Fixpoint upsertEpisode (now : Z) (e : Episode.t) (rows : list Episodes.row)
  : list Episodes.row :=
  match rows with
  | [] =>
      [ {| Episodes.id := Episode.id e;
           Episodes.timestamp := Episode.timestamp e;
           Episodes.context := Episode.context e;
           Episodes.actions := Episode.actions e;
           Episodes.outcome := Episode.outcome e;
           Episodes.pattern_ids := Episode.patternIds e;
           Episodes.created_at := now |} ]
  | r :: rest =>
      if String.eqb (Episodes.id r) (Episode.id e) then
        {| Episodes.id := Episodes.id r;
           Episodes.timestamp := Episode.timestamp e;
           Episodes.context := Episode.context e;
           Episodes.actions := Episode.actions e;
           Episodes.outcome := Episode.outcome e;
           Episodes.pattern_ids := Episode.patternIds e;
           Episodes.created_at := Episodes.created_at r |} :: rest
      else r :: upsertEpisode now e rest
  end.

Definition saveEpisode (now : Z) (db : t) (e : Episode.t) : Result t :=
  if (255 <? String.length (Episode.id e))%nat
  then Err "value too long for type character varying(255)"
  else Ok {| patterns := patterns db;
             episodes := upsertEpisode now e (episodes db) |}.

(** The [WHERE] clause of [findSimilarEpisodes]; both parameters are
    the string ["%" + context.toLowerCase() + "%"]. *)
Definition similar (param : string) (r : Episodes.row) : option bool :=
  Sql.or_else (Sql.like param (JS.toLowerCase (Episodes.context r)))
              (Sql.like (JS.toLowerCase (Episodes.context r)) param).

(** [findSimilarEpisodes]: [... ORDER BY timestamp DESC LIMIT $3]. *)
Definition findSimilarEpisodes (db : t) (context : string) (limit : Z)
  : Result (list Episode.t) :=
  let contextLower := "%" ++ JS.toLowerCase context ++ "%" in
  if (limit <? 0)%Z then Err "LIMIT must not be negative"
  else
    match Sql.select_where (similar contextLower) (episodes db) with
    | None => Err "LIKE pattern must not end with escape character"
    | Some rows =>
        Ok (map rowToEpisode
              (firstn (Z.to_nat limit)
                 (JS.sort_desc (fun r => inject_Z (Episodes.timestamp r)) rows)))
    end.

Definition default_limit : Z := 5.

(** [extractPatternFromEpisodes]; the rows come from
    [SELECT * FROM episodes WHERE id = ANY($1)]. *)
Definition extractPatternFromEpisodes (now : Z) (db : t)
  (episodeIds : list string) (patternName problemStatement : string)
  : Result (option Pattern.t * t) :=
  let rows := filter (fun r => existsb (String.eqb (Episodes.id r)) episodeIds)
                     (episodes db) in
  let eps := map rowToEpisode rows in
  if (List.length eps <? 2)%nat then Ok (None, db)
  else
    match PatternExtractor.extractPattern now eps patternName problemStatement with
    | Some p =>
        let allPatterns := getAllPatterns db in
        let relatedIds := PatternExtractor.findRelatedPatterns p allPatterns in
        let p' := FileStore.withRelations p (map FileStore.leadsTo relatedIds) in
        match savePattern now db p' with
        | Ok db' => Ok (Some p', db')
        | Err msg => Err msg
        end
    | None => Ok (None, db)
    end.

(** [initializeWithSamplePatterns] and [initialize] on a reachable
    database. *)
Fixpoint saveAll (now : Z) (db : t) (ps : list Pattern.t) : Result t :=
  match ps with
  | [] => Ok db
  | p :: rest =>
      match savePattern now db p with
      | Ok db' => saveAll now db' rest
      | Err msg => Err msg
      end
  end.

Definition initialize (now : Z) (db : t) : Result t :=
  if (List.length (patterns db) =? 0)%nat
  then saveAll now db (Samples.samplePatterns now)
  else Ok db.

End PostgresStore.

(** ** The behaviour in the words of the specification

    These definitions restate the algorithms as the specification
    describes them; the theorems below compare them with the code. *)

Module Spec.

Open Scope string_scope.

(** [t] is a substring of [s]. *)
Definition Substring (t s : string) : Prop := exists a b, s = a ++ t ++ b.

Definition clamp (x lo hi : Q) : Q :=
  if Qlt_le_dec x lo then lo else if Qlt_le_dec hi x then hi else x.

(** Descending order by [key]. *)
Definition desc (A : Type) (key : A -> Q) (a b : A) : Prop := key b <= key a.

Definition count (A : Type) (l : list A) : Q := inject_Z (Z.of_nat (List.length l)).

(** *** Pattern search *)

Definition matchedTags (query : string) (p : Pattern.t) : list string :=
  filter (fun tag => JS.includes (JS.toLowerCase query) (JS.toLowerCase tag))
         (Pattern.context p).

Definition raw (query : string) (p : Pattern.t) : Q :=
  let q := JS.toLowerCase query in
  0.3 * count (matchedTags query p)
  + (if JS.includes q (JS.toLowerCase (Pattern.name p)) then 0.2 else 0)
  + (if JS.includes q (JS.toLowerCase (Pattern.problem p)) ||
        JS.includes (JS.toLowerCase (Pattern.problem p)) q
     then 0.2 else 0).

Definition expected_relevance (query : string) (p : Pattern.t) : Q :=
  Qmin 1.0 (Pattern.confidence p * raw query p).

Definition expected_reason (query : string) (p : Pattern.t) : string :=
  match matchedTags query p with
  | [] => "Partial match on name or problem"
  | tags => "Matches contexts: " ++ String.concat ", " tags
  end.

(** The patterns that a search returns: those of positive relevance. *)
Definition included (query : string) (p : Pattern.t) : bool :=
  negb (Qle_bool (expected_relevance query p) 0).

(** What a search over the patterns [stored] has to return. *)
Definition search_result (stored : list Pattern.t) (query : string)
  (res : list PatternSearchResult) : Prop :=
  (forall r, In r res ->
     relevance r == expected_relevance query (pattern r) /\
     reason r = expected_reason query (pattern r)) /\
  Permutation (map pattern res)
    (filter (included query) stored) /\
  (forall p, expected_relevance query p == 0 -> ~ In p (map pattern res)) /\
  StronglySorted (desc relevance) res.

(** *** Reinforcement *)

Definition adjustment (success : bool) : Q :=
  if success then 0.05 else - 0.02.

Definition in_range (c : Q) : Prop := 0.1 <= c /\ c <= 1.0.

(** A sequence of [reinforcePattern] calls on the file-backed store:
    each call names a pattern id and an outcome. *)
Definition reinforceAll (st : FileStore.t) (calls : list (string * bool))
  : FileStore.t :=
  fold_left (fun st call => FileStore.reinforcePattern st (fst call) (snd call))
            calls st.

(** The same on the database; each call also carries the time at which
    it runs. *)
Definition reinforceAllRows (db : PostgresStore.t)
  (calls : list (Z * (string * bool))) : PostgresStore.t :=
  fold_left (fun db call =>
               PostgresStore.reinforcePattern (fst call) db
                 (fst (snd call)) (snd (snd call)))
            calls db.

(** *** Extraction: outcome categories and confidence *)

Definition success_vocabulary : list string :=
  ["success"; "understood"; "completed"; "solved"].

Definition failure_vocabulary : list string :=
  ["fail"; "error"; "confused"; "stuck"].

(** The lower-cased outcome text contains a word of the vocabulary. *)
Definition mentions (vocabulary : list string) (outcome : string) : bool :=
  existsb (JS.includes (JS.toLowerCase outcome)) vocabulary.

Definition successes (episodes : list Episode.t) : list Episode.t :=
  filter (fun ep => mentions success_vocabulary (Episode.outcome ep)) episodes.

(** *** Episode similarity *)

(** The distinct tokens that the lower-cased query and the lower-cased
    episode context share. *)
Definition sharedTokens (query context : string) : list string :=
  nodup string_dec
    (filter (fun w => existsb (String.eqb w) (JS.split_ws (JS.toLowerCase context)))
            (JS.split_ws (JS.toLowerCase query))).

Definition similarity (query : string) (ep : Episode.t) : Q :=
  let q := JS.toLowerCase query in
  let c := JS.toLowerCase (Episode.context ep) in
  (if JS.includes q c || JS.includes c q then 0.5 else 0)
  + 0.1 * count (sharedTokens query (Episode.context ep)).





(** *** Applying a pattern *)

(** [p'] is [p] but for [usageCount] and [lastUsedAt]. *)
Definition same_but_usage (p p' : Pattern.t) : Prop :=
  Pattern.id p' = Pattern.id p /\
  Pattern.name p' = Pattern.name p /\
  Pattern.context p' = Pattern.context p /\
  Pattern.problem p' = Pattern.problem p /\
  Pattern.solution p' = Pattern.solution p /\
  Pattern.examples p' = Pattern.examples p /\
  Pattern.relations p' = Pattern.relations p /\
  Pattern.confidence p' = Pattern.confidence p /\
  Pattern.createdAt p' = Pattern.createdAt p.

(** *** Extraction: common context *)

(** The number of episodes whose lower-cased context has the token. *)
Definition documentFrequency (token : string) (episodes : list Episode.t) : nat :=
  List.length
    (filter (fun ep => existsb (String.eqb token)
                         (JS.split_ws (JS.toLowerCase (Episode.context ep))))
            episodes).

(** *** Extraction from stored episodes *)

Definition is_some (A : Type) (o : option A) : bool :=
  match o with Some _ => true | None => false end.

(** The supplied ids that resolve to an episode of the file-backed
    store. *)
Definition resolved (st : FileStore.t) (ids : list string) : list string :=
  filter (fun id => is_some (JS.Map_get (FileStore.episodes st) id)) ids.

(** The supplied ids that resolve to a row of the [episodes] table. *)
Definition resolvedRows (db : PostgresStore.t) (ids : list string) : list string :=
  filter (fun id => existsb (fun r => String.eqb (PostgresStore.Episodes.id r) id)
                            (PostgresStore.episodes db))
         ids.

(** The rows of the [patterns] table that [WHERE id = $1] selects. *)
Definition hasId (id : string) (r : PostgresStore.Patterns.row) : bool :=
  String.eqb (PostgresStore.Patterns.id r) id.

(** [id] is the primary key of the [episodes] table. *)
Definition primary_key (db : PostgresStore.t) : Prop :=
  NoDup (map PostgresStore.Episodes.id (PostgresStore.episodes db)).

End Spec.

(** ** Concrete stores and episodes

    The seeded stores, the episodes of the repository's own test
    scripts and a few inputs that the theorems are run on. *)

Module Examples.

Open Scope string_scope.

(** The file-backed store after its first [initialize]. *)
Definition seeded : FileStore.t := FileStore.initialize 0 FileStore.empty.

(** The database after its first [initialize]. *)
Definition seededRows : PostgresStore.t :=
  match PostgresStore.initialize 0 PostgresStore.empty with
  | Ok db => db
  | Err _ => PostgresStore.empty
  end.

(** The episode of [test-patterns.ts]. *)
Definition recursion : Episode.t :=
  {| Episode.id := "ep-001";
     Episode.timestamp := 1;
     Episode.context := "User asked about recursion";
     Episode.actions :=
       ["Explained with simple example"; "Built up complexity gradually"];
     Episode.outcome := "User understood the concept";
     Episode.patternIds := ["progressive-disclosure"] |}.

Definition withEpisode : FileStore.t := FileStore.saveEpisode seeded recursion.

Definition rowsWithEpisode : PostgresStore.t :=
  match PostgresStore.saveEpisode 1 seededRows recursion with
  | Ok db => db
  | Err _ => seededRows
  end.

(** The first two episodes of the extraction test script. *)
Definition debug1 : Episode.t :=
  {| Episode.id := "ep-debug-1";
     Episode.timestamp := 2;
     Episode.context := "User trying to debug a null pointer error";
     Episode.actions :=
       ["Ask for the error message"; "Check variable initialization";
        "Add null checks"; "Test the fix"];
     Episode.outcome := "Error resolved successfully";
     Episode.patternIds := [] |}.

Definition debug2 : Episode.t :=
  {| Episode.id := "ep-debug-2";
     Episode.timestamp := 3;
     Episode.context := "User debugging undefined variable error";
     Episode.actions :=
       ["Request error details"; "Examine variable scope";
        "Add validation"; "Verify the solution"];
     Episode.outcome := "Issue fixed and understood";
     Episode.patternIds := [] |}.

(** Two episodes without a success. *)
Definition stuck1 : Episode.t :=
  {| Episode.id := "ep-stuck-1";
     Episode.timestamp := 4;
     Episode.context := "User porting a build script";
     Episode.actions := ["Read the script"; "Run it"];
     Episode.outcome := "The build failed";
     Episode.patternIds := [] |}.

Definition stuck2 : Episode.t :=
  {| Episode.id := "ep-stuck-2";
     Episode.timestamp := 5;
     Episode.context := "User porting a test script";
     Episode.actions := ["Read the script"; "Run it"];
     Episode.outcome := "User is still waiting";
     Episode.patternIds := [] |}.

(** A pattern of confidence 0. *)
Definition dormant : Pattern.t :=
  {| Pattern.id := "dormant";
     Pattern.name := "Dormant";
     Pattern.context := ["user is learning"];
     Pattern.problem := "Nothing worked";
     Pattern.solution := "None";
     Pattern.examples := [];
     Pattern.relations := [];
     Pattern.confidence := 0;
     Pattern.usageCount := 0;
     Pattern.createdAt := 0;
     Pattern.lastUsedAt := None |}.

End Examples.

Module CommonContextExample.

Open Scope string_scope.

Definition episode (id context : string) : Episode.t :=
  {| Episode.id := id;
     Episode.timestamp := 0;
     Episode.context := context;
     Episode.actions := [];
     Episode.outcome := "done";
     Episode.patternIds := [] |}.

(** Three episodes; the first one has the token "test" twice. *)
Definition episodes : list Episode.t :=
  [episode "e1" "test test"; episode "e2" "alphabet"; episode "e3" "betamax"].

End CommonContextExample.

Module EmptyQueryExample.

Open Scope string_scope.



End EmptyQueryExample.

(** ** Further behaviour of the stores

    Frames and repeated calls, stated over the operations above. *)

Module Frame.

(** [p'] is [p] but for [confidence]. *)
Definition same_but_confidence (p p' : Pattern.t) : Prop :=
  Pattern.id p' = Pattern.id p /\
  Pattern.name p' = Pattern.name p /\
  Pattern.context p' = Pattern.context p /\
  Pattern.problem p' = Pattern.problem p /\
  Pattern.solution p' = Pattern.solution p /\
  Pattern.examples p' = Pattern.examples p /\
  Pattern.relations p' = Pattern.relations p /\
  Pattern.usageCount p' = Pattern.usageCount p /\
  Pattern.createdAt p' = Pattern.createdAt p /\
  Pattern.lastUsedAt p' = Pattern.lastUsedAt p.






End Frame.

Module Text.

(** Every character of [s] passes [f]. *)
Fixpoint all_chars (f : ascii -> bool) (s : string) : bool :=
  match s with
  | EmptyString => true
  | String c r => f c && all_chars f r
  end.



End Text.

Module Counting.




(** The count that [(m.get(k) || 0)] reads. *)
Definition get0 (m : list (string * nat)) (k : string) : nat :=
  match JS.Map_get m k with Some n => n | None => 0 end.

(** Every key of the map has a positive count. *)
Definition positive (m : list (string * nat)) : Prop :=
  forall k n, JS.Map_get m k = Some n -> (0 < n)%nat.

(** The value of [commonContext] before [slice(0, 5)]. *)
Definition qualifying (episodes : list Episode.t) : list string :=
  map fst
    (filter (PatternExtractor.at_least
               (inject_Z (Z.of_nat (List.length episodes)) * 0.5))
            (JS.Map_entries (PatternExtractor.contextCounts episodes))).

(** Two patterns have context tags of which one contains the other. *)
Definition overlap (p other : Pattern.t) : Prop :=
  exists c oc,
    In c (Pattern.context p) /\ In oc (Pattern.context other) /\
    (Spec.Substring c oc \/ Spec.Substring oc c).

End Counting.

Module Actions.

(** The two-action sequences of all the episodes, in the order the
    loops of [findCommonActionPatterns] meet them. *)
Definition pairs (episodes : list Episode.t) : list string :=
  flat_map (fun ep => PatternExtractor.sequences (Episode.actions ep)) episodes.

(** How often a sequence is met. *)
Definition times (sequence : string) (episodes : list Episode.t) : nat :=
  count_occ string_dec (pairs episodes) sequence.

(** The map [actionSequences] after the loops. *)
Definition actionSequences (episodes : list Episode.t) : list (string * nat) :=
  fold_left
    (fun m ep =>
       fold_left PatternExtractor.bump
                 (PatternExtractor.sequences (Episode.actions ep)) m)
    episodes [].

(** The value of [findCommonActionPatterns] before [slice(0, 3)]. *)
Definition frequent (episodes : list Episode.t) : list string :=
  map fst
    (filter (PatternExtractor.at_least
               (inject_Z (Z.of_nat (List.length episodes)) * 0.3))
            (JS.Map_entries (actionSequences episodes))).

(** [a] is followed by [b] in the list. *)
Definition adjacent (a b : string) (actions : list string) : Prop :=
  exists before rest, actions = (before ++ a :: b :: rest)%list.

End Actions.

Module Ranking.

(** The distinct pieces of the lower-cased query. *)
Definition queryTokens (query : string) : list string :=
  nodup string_dec (JS.split_ws (JS.toLowerCase query)).

(** The highest score that a query can give. *)
Definition best (query : string) : Q :=
  0.5 + 0.1 * Spec.count (queryTokens query).

(** The episodes of the file-backed store by descending score. *)
Definition ranked (st : FileStore.t) (query : string) : list Episode.t :=
  JS.sort_desc (Spec.similarity query) (JS.Map_values (FileStore.episodes st)).

Definition nonzero (query : string) (ep : Episode.t) : bool :=
  negb (Qeq_bool (Spec.similarity query ep) 0).


End Ranking.

(** ** Sessions

    A session is a sequence of calls on a store, each at its own time.
    A call that the database rejects leaves the database as it was. *)

Module Sessions.

Inductive call : Type :=
| Initialize
| SavePattern (p : Pattern.t)
| SaveEpisode (e : Episode.t)
| ApplyPattern (patternId : string)
| ReinforcePattern (patternId : string) (success : bool)
| ExtractPattern (episodeIds : list string) (patternName problemStatement : string).

Definition runFile (st : FileStore.t) (step : Z * call) : FileStore.t :=
  let now := fst step in
  match snd step with
  | Initialize => FileStore.initialize now st
  | SavePattern p => FileStore.savePattern st p
  | SaveEpisode e => FileStore.saveEpisode st e
  | ApplyPattern id => snd (FileStore.applyPattern now st id)
  | ReinforcePattern id outcome => FileStore.reinforcePattern st id outcome
  | ExtractPattern ids name problem =>
      snd (FileStore.extractPatternFromEpisodes now st ids name problem)
  end.

Definition or_keep (A : Type) (old : A) (r : Result A) : A :=
  match r with Ok new => new | Err _ => old end.

Definition runRows (db : PostgresStore.t) (step : Z * call) : PostgresStore.t :=
  let now := fst step in
  match snd step with
  | Initialize => or_keep db (PostgresStore.initialize now db)
  | SavePattern p => or_keep db (PostgresStore.savePattern now db p)
  | SaveEpisode e => or_keep db (PostgresStore.saveEpisode now db e)
  | ApplyPattern id => snd (PostgresStore.applyPattern now db id)
  | ReinforcePattern id outcome => PostgresStore.reinforcePattern now db id outcome
  | ExtractPattern ids name problem =>
      match PostgresStore.extractPatternFromEpisodes now db ids name problem with
      | Ok (_, db') => db'
      | Err _ => db
      end
  end.

Definition sessionFile (st : FileStore.t) (steps : list (Z * call)) : FileStore.t :=
  fold_left runFile steps st.

Definition sessionRows (db : PostgresStore.t) (steps : list (Z * call))
  : PostgresStore.t :=
  fold_left runRows steps db.

(** Every entry of a map is stored under the id it carries, and no key
    comes twice. *)
Definition keyed (A : Type) (id : A -> string) (m : list (string * A)) : Prop :=
  Forall (fun entry => fst entry = id (snd entry)) m /\ NoDup (map fst m).

Definition wfFile (st : FileStore.t) : Prop :=
  keyed Pattern.id (FileStore.patterns st) /\
  keyed Episode.id (FileStore.episodes st).

(** The constraints of [schema.sql] on a row of [patterns]. *)
Definition row_ok (r : PostgresStore.Patterns.row) : Prop :=
  (0 <= PostgresStore.Patterns.confidence r <= 100)%Z /\
  (String.length (PostgresStore.Patterns.id r) <= 255)%nat /\
  (String.length (PostgresStore.Patterns.name r) <= 255)%nat.

Definition wfRows (db : PostgresStore.t) : Prop :=
  NoDup (map PostgresStore.Patterns.id (PostgresStore.patterns db)) /\
  Forall row_ok (PostgresStore.patterns db) /\
  NoDup (map PostgresStore.Episodes.id (PostgresStore.episodes db)) /\
  Forall (fun r => (String.length (PostgresStore.Episodes.id r) <= 255)%nat)
         (PostgresStore.episodes db).

End Sessions.

Module Extraction.

(** The episodes [extractPatternFromEpisodes] works on: in the
    file-backed store one for every supplied id that is a key, in the
    order of the ids; in the relational store the rows whose id is
    among the supplied ids, in table order. *)
Definition found (st : FileStore.t) (ids : list string) : list Episode.t :=
  FileStore.lookupAll (FileStore.episodes st) ids.


(** A relation written by the extraction: [leads_to] with strength one
    half, to another pattern that shares a context tag with [p]. *)
Definition links (p : Pattern.t) (others : list Pattern.t) (r : PatternRelation)
  : Prop :=
  type r = leads_to /\ strength r == 0.5 /\
  patternId r <> Pattern.id p /\
  exists other,
    In other others /\ Pattern.id other = patternId r /\ Counting.overlap p other.

End Extraction.

(** ** A session of the two stores

    The calls of the repository's test scripts: seeding, three
    episodes, a use and a success of a seed pattern, and an
    extraction from the two debugging episodes. *)

Module Scenario.

Open Scope string_scope.

Definition calls : list (Z * Sessions.call) :=
  [ (0%Z, Sessions.Initialize);
    (1%Z, Sessions.SaveEpisode Examples.recursion);
    (2%Z, Sessions.SaveEpisode Examples.debug1);
    (3%Z, Sessions.SaveEpisode Examples.debug2);
    (4%Z, Sessions.ApplyPattern "progressive-disclosure");
    (5%Z, Sessions.ReinforcePattern "progressive-disclosure" true) ].

Definition debugging : FileStore.t := Sessions.sessionFile FileStore.empty calls.

Definition debuggingRows : PostgresStore.t :=
  Sessions.sessionRows PostgresStore.empty calls.

Definition debugIds : list string := ["ep-debug-1"; "ep-debug-2"; "ep-missing"].

(** The first seed pattern saved again at a later time. *)
Definition reseededRows : PostgresStore.t :=
  Sessions.sessionRows Examples.seededRows
    [(7%Z, Sessions.SavePattern (Samples.progressive_disclosure 7))].

End Scenario.

(** * Properties *)

(** ** Strings, sorting and arithmetic *)

Section JSFacts.

Open Scope string_scope.

Lemma startsWith_spec (s t : string) :
  JS.startsWith s t = true <-> exists b, s = t ++ b.
Proof.
  revert s; induction t as [|c t IH]; intros s; simpl.
  - split; [intros _; now exists s | now destruct s].
  - destruct s as [|a s].
    + split; [discriminate | intros [b Hb]; discriminate].
    + simpl. rewrite andb_true_iff, Ascii.eqb_eq, IH. split.
      * intros [-> [b ->]]. now exists b.
      * intros [b Hb]. injection Hb as -> ->. split; [reflexivity | now exists b].
Qed.

Lemma includes_eq (s t : string) :
  JS.includes s t =
  JS.startsWith s t ||
  match s with EmptyString => false | String _ s' => JS.includes s' t end.
Proof. destruct s; reflexivity. Qed.

(** [includes] decides the substring relation. *)
Lemma includes_spec (s t : string) :
  JS.includes s t = true <-> exists a b, s = a ++ t ++ b.
Proof.
  induction s as [|c s IH]; rewrite includes_eq.
  - rewrite orb_false_r, startsWith_spec. split.
    + intros [b Hb]. now exists "", b.
    + intros [a [b Hab]]. destruct a; [now exists b | discriminate].
  - rewrite orb_true_iff, startsWith_spec, IH. split.
    + intros [[b Hb] | [a [b Hab]]].
      * now exists "", b.
      * exists (String c a), b. simpl. now rewrite Hab.
    + intros [a [b Hab]]. destruct a as [|a0 a].
      * left. now exists b.
      * right. injection Hab as _ ->. now exists a, b.
Qed.




Lemma toLowerCase_empty : JS.toLowerCase "" = "".
Proof. reflexivity. Qed.

End JSFacts.

Section SortFacts.

Variable A : Type.
Variable key : A -> Q.

Lemma insert_desc_perm (x : A) (l : list A) :
  Permutation (x :: l) (JS.insert_desc key x l).
Proof.
  induction l as [|y l IH]; simpl; [constructor; constructor|].
  destruct (Qle_bool (key y) (key x)); [apply Permutation_refl|].
  eapply perm_trans; [apply perm_swap | now constructor].
Qed.

Lemma sort_desc_perm (l : list A) : Permutation l (JS.sort_desc key l).
Proof.
  induction l as [|x l IH]; simpl; [constructor|].
  eapply perm_trans; [|apply insert_desc_perm]. now constructor.
Qed.

Lemma insert_desc_sorted (x : A) (l : list A) :
  StronglySorted (Spec.desc key) l -> StronglySorted (Spec.desc key) (JS.insert_desc key x l).
Proof.
  induction 1 as [|y l Hs IH Hall]; simpl.
  - constructor; constructor.
  - destruct (Qle_bool (key y) (key x)) eqn:E.
    + apply Qle_bool_iff in E. constructor; [now constructor|].
      constructor; [exact E|].
      eapply Forall_impl; [|exact Hall]. intros z Hz. unfold Spec.desc in *.
      eapply Qle_trans; eassumption.
    + constructor; [exact IH|].
      assert (Hxy : key x <= key y).
      { apply Qnot_lt_le. intros Hlt. apply Qlt_le_weak in Hlt.
        apply Qle_bool_iff in Hlt. congruence. }
      eapply Permutation_Forall; [apply insert_desc_perm|].
      constructor; assumption.
Qed.

Lemma sort_desc_sorted (l : list A) : StronglySorted (Spec.desc key) (JS.sort_desc key l).
Proof.
  induction l as [|x l IH]; simpl; [constructor | now apply insert_desc_sorted].
Qed.

Lemma sort_desc_In (l : list A) (x : A) : In x (JS.sort_desc key l) <-> In x l.
Proof.
  split; apply Permutation_in;
    [apply Permutation_sym|]; apply sort_desc_perm.
Qed.

End SortFacts.

Section NumberFacts.

Lemma Math_min_le_l (a b : Q) : JS.Math_min a b <= a.
Proof.
  unfold JS.Math_min. destruct (Qle_bool a b) eqn:E; [apply Qle_refl|].
  apply Qnot_lt_le. intros H. apply Qlt_le_weak, Qle_bool_iff in H. congruence.
Qed.

Lemma Math_min_le_r (a b : Q) : JS.Math_min a b <= b.
Proof.
  unfold JS.Math_min. destruct (Qle_bool a b) eqn:E; [|apply Qle_refl].
  now apply Qle_bool_iff.
Qed.

Lemma Math_min_cases (a b : Q) :
  (a <= b /\ JS.Math_min a b = a) \/ (b < a /\ JS.Math_min a b = b).
Proof.
  unfold JS.Math_min. destruct (Qle_bool a b) eqn:E.
  - left. split; [now apply Qle_bool_iff | reflexivity].
  - right. split; [|reflexivity]. apply Qnot_le_lt. intros H.
    apply Qle_bool_iff in H. congruence.
Qed.

Lemma Math_max_cases (a b : Q) :
  (a <= b /\ JS.Math_max a b = b) \/ (b < a /\ JS.Math_max a b = a).
Proof.
  unfold JS.Math_max. destruct (Qle_bool a b) eqn:E.
  - left. split; [now apply Qle_bool_iff | reflexivity].
  - right. split; [|reflexivity]. apply Qnot_le_lt. intros H.
    apply Qle_bool_iff in H. congruence.
Qed.

Lemma Math_min_Qmin (a b : Q) : JS.Math_min a b == Qmin a b.
Proof.
  destruct (Math_min_cases a b) as [[H ->] | [H ->]].
  - symmetry. now apply Q.min_l.
  - symmetry. apply Q.min_r. now apply Qlt_le_weak.
Qed.

Lemma Math_clamp (x : Q) :
  JS.Math_max 0.1 (JS.Math_min 1.0 x) == Spec.clamp x 0.1 1.0.
Proof.
  unfold Spec.clamp.
  destruct (Math_min_cases 1.0 x) as [[H1 ->] | [H1 ->]];
    [destruct (Math_max_cases 0.1 1.0) as [[H2 ->] | [H2 ->]]
    |destruct (Math_max_cases 0.1 x) as [[H2 ->] | [H2 ->]]];
    destruct (Qlt_le_dec x 0.1); try destruct (Qlt_le_dec 1.0 x); lra.
Qed.

Lemma clamp_range (x : Q) : 0.1 <= Spec.clamp x 0.1 1.0 /\ Spec.clamp x 0.1 1.0 <= 1.0.
Proof.
  unfold Spec.clamp. destruct (Qlt_le_dec x 0.1); [lra|].
  destruct (Qlt_le_dec 1.0 x); lra.
Qed.

End NumberFacts.

(** ** Pattern search *)

Section SearchFacts.

Open Scope string_scope.

Variable query : string.

Let tagMatches (tag : string) : bool :=
  JS.includes (JS.toLowerCase query) (JS.toLowerCase tag).

Lemma count_snoc (A : Type) (l : list A) (x : A) :
  Spec.count (l ++ [x]) == Spec.count l + 1.
Proof.
  unfold Spec.count. rewrite length_app, Nat.add_comm. simpl List.length.
  rewrite Nat2Z.inj_succ, <- Z.add_1_r, inject_Z_plus. reflexivity.
Qed.

Lemma count_nil (A : Type) : Spec.count (@nil A) == 0.
Proof. reflexivity. Qed.

Lemma count_cons (A : Type) (l : list A) (x : A) :
  Spec.count (x :: l) == Spec.count l + 1.
Proof.
  unfold Spec.count. simpl List.length.
  rewrite Nat2Z.inj_succ, <- Z.add_1_r, inject_Z_plus. reflexivity.
Qed.

(** The loop over the tags adds [0.3] for each matching tag and records
    the matching tags in order. *)
Lemma scanTag_fold (tags : list string) (a : Q) (m : list string) :
  fst (fold_left (Search.scanTag (JS.toLowerCase query)) tags (a, m))
    == a + 0.3 * Spec.count (filter tagMatches tags) /\
  snd (fold_left (Search.scanTag (JS.toLowerCase query)) tags (a, m))
    = (m ++ filter tagMatches tags)%list.
Proof.
  revert a m. induction tags as [|tag tags IH]; intros a m; cbn [fold_left filter].
  - split; [cbn [fst]; rewrite count_nil; lra | cbn [snd]; now rewrite app_nil_r].
  - unfold Search.scanTag at 2 4.
    change (JS.includes (JS.toLowerCase query) (JS.toLowerCase tag))
      with (tagMatches tag).
    destruct (tagMatches tag); cbn [fst snd].
    + destruct (IH (a + 0.3) (m ++ [tag])%list) as [H1 H2]. split.
      * rewrite H1, count_cons. lra.
      * rewrite H2, <- app_assoc. reflexivity.
    + apply IH.
Qed.

Lemma matchedContexts_spec (p : Pattern.t) :
  Search.matchedContexts query p = Spec.matchedTags query p.
Proof.
  unfold Search.matchedContexts, Spec.matchedTags.
  now destruct (scanTag_fold (Pattern.context p) 0 []) as [_ ->].
Qed.

Lemma rawScore_spec (p : Pattern.t) :
  Search.rawScore query p == Spec.raw query p.
Proof.
  unfold Search.rawScore, Spec.raw, Search.nameBonus, Search.problemBonus.
  destruct (scanTag_fold (Pattern.context p) 0 []) as [-> _].
  change (Spec.matchedTags query p) with (filter tagMatches (Pattern.context p)).
  rewrite (orb_comm (JS.includes (JS.toLowerCase (Pattern.problem p)) _)).
  repeat match goal with |- context [if ?b then _ else _] => destruct b end; lra.
Qed.

Lemma positive_after_min (x : Q) :
  Qle_bool (Qmin 1.0 x) 0 = Qle_bool x 0.
Proof.
  destruct (Qle_bool x 0) eqn:E.
  - apply Qle_bool_iff in E. apply Qle_bool_iff.
    eapply Qle_trans; [apply Q.le_min_r | exact E].
  - destruct (Qle_bool (Qmin 1.0 x) 0) eqn:E'; [|reflexivity].
    apply Qle_bool_iff in E'.
    destruct (Q.min_dec 1.0 x) as [H | H]; rewrite H in E'.
    + lra.
    + apply Qle_bool_iff in E'. congruence.
Qed.

Let included : Pattern.t -> bool := Spec.included query.

Lemma included_spec (p : Pattern.t) :
  included p = negb (Qle_bool (Search.rawScore query p * Pattern.confidence p) 0).
Proof.
  unfold included, Spec.included, Spec.expected_relevance. rewrite positive_after_min.
  f_equal. apply Qleb_comp; [|reflexivity].
  rewrite rawScore_spec. apply Qmult_comm.
Qed.

Lemma visit_included (p : Pattern.t) (r : PatternSearchResult) :
  Search.visit query p = Some r ->
  included p = true /\ pattern r = p /\
  relevance r == Spec.expected_relevance query p /\
  reason r = Spec.expected_reason query p.
Proof.
  unfold Search.visit. rewrite <- included_spec.
  destruct (included p); [|discriminate].
  intros [= <-]. simpl. repeat split.
  - unfold Spec.expected_relevance.
    rewrite Math_min_Qmin, Q.min_comm, rawScore_spec, Qmult_comm. reflexivity.
  - rewrite matchedContexts_spec. unfold Spec.expected_reason.
    now destruct (Spec.matchedTags query p).
Qed.

Lemma visit_excluded (p : Pattern.t) :
  Search.visit query p = None -> included p = false.
Proof.
  unfold Search.visit. rewrite <- included_spec.
  now destruct (included p).
Qed.

Lemma collect_patterns (ps : list Pattern.t) :
  map pattern (Search.collect query ps) = filter included ps.
Proof.
  induction ps as [|p ps IH]; simpl; [reflexivity|].
  destruct (Search.visit query p) as [r|] eqn:E.
  - apply visit_included in E as (-> & Hp & _). simpl. now rewrite Hp, IH.
  - apply visit_excluded in E as ->. exact IH.
Qed.

Lemma collect_entries (ps : list Pattern.t) (r : PatternSearchResult) :
  In r (Search.collect query ps) ->
  relevance r == Spec.expected_relevance query (pattern r) /\
  reason r = Spec.expected_reason query (pattern r).
Proof.
  induction ps as [|p ps IH]; simpl; [contradiction|].
  destruct (Search.visit query p) as [r'|] eqn:E; [|exact IH].
  intros [<- | H]; [|now apply IH].
  apply visit_included in E as (_ & -> & Hrel & Hreason). now split.
Qed.

(** The search over any list of stored patterns meets the
    specification. *)
Lemma search_meets_spec (ps : list Pattern.t) :
  Spec.search_result ps query (Search.searchPatterns ps query).
Proof.
  unfold Spec.search_result, Search.searchPatterns.
  assert (Hperm : Permutation
                    (map pattern (JS.sort_desc relevance (Search.collect query ps)))
                    (filter included ps)).
  { rewrite <- collect_patterns. apply Permutation_map, Permutation_sym,
      sort_desc_perm. }
  repeat split.
  - apply (collect_entries ps). now apply sort_desc_In in H.
  - apply (collect_entries ps). now apply sort_desc_In in H.
  - exact Hperm.
  - intros p Hzero Hin.
    apply (Permutation_in _ Hperm), filter_In in Hin as [_ Hin].
    unfold included, Spec.included in Hin. apply negb_true_iff in Hin.
    assert (Hle : Spec.expected_relevance query p <= 0) by (rewrite Hzero; lra).
    apply Qle_bool_iff in Hle. congruence.
  - apply sort_desc_sorted.
Qed.

End SearchFacts.


(** ** Maps in insertion order *)

Section MapFacts.

Variable V : Type.

Lemma Map_get_set_same (m : list (string * V)) (k : string) (v : V) :
  JS.Map_get (JS.Map_set m k v) k = Some v.
Proof.
  induction m as [|[k' v'] m IH]; simpl.
  - now rewrite String.eqb_refl.
  - destruct (String.eqb k k') eqn:E; simpl; rewrite E; [reflexivity | exact IH].
Qed.

Lemma Map_get_set_other (m : list (string * V)) (k k' : string) (v : V) :
  k' <> k -> JS.Map_get (JS.Map_set m k v) k' = JS.Map_get m k'.
Proof.
  intros Hne. induction m as [|[k0 v0] m IH]; simpl.
  - apply String.eqb_neq in Hne. now rewrite Hne.
  - destruct (String.eqb k k0) eqn:E; simpl.
    + apply String.eqb_eq in E. subst k0.
      apply String.eqb_neq in Hne. now rewrite Hne.
    + now rewrite IH.
Qed.

End MapFacts.

(** ** Reinforcement *)

Section ReinforceFileFacts.

Lemma adjust_confidence (success : bool) (p : Pattern.t) :
  Pattern.confidence (FileStore.adjust success p)
  == Spec.clamp (Pattern.confidence p + Spec.adjustment success) 0.1 1.0.
Proof.
  unfold FileStore.adjust, Spec.adjustment. cbn [Pattern.confidence].
  apply Math_clamp.
Qed.

Lemma reinforce_known (st : FileStore.t) (id : string) (success : bool)
  (p : Pattern.t) :
  FileStore.getPattern st id = Some p ->
  FileStore.getPattern (FileStore.reinforcePattern st id success) id
  = Some (FileStore.adjust success p).
Proof.
  unfold FileStore.getPattern, FileStore.reinforcePattern. intros ->.
  cbn [FileStore.patterns]. apply Map_get_set_same.
Qed.

Lemma reinforce_other (st : FileStore.t) (id id' : string) (success : bool) :
  id' <> id ->
  FileStore.getPattern (FileStore.reinforcePattern st id success) id'
  = FileStore.getPattern st id'.
Proof.
  unfold FileStore.getPattern, FileStore.reinforcePattern. intros Hne.
  destruct (JS.Map_get (FileStore.patterns st) id); [|reflexivity].
  cbn [FileStore.patterns]. now apply Map_get_set_other.
Qed.

Lemma reinforce_unknown (st : FileStore.t) (id : string) (success : bool) :
  FileStore.getPattern st id = None ->
  FileStore.reinforcePattern st id success = st.
Proof.
  unfold FileStore.getPattern, FileStore.reinforcePattern. now intros ->.
Qed.

Lemma reinforceAll_range (calls : list (string * bool)) (st : FileStore.t)
  (id : string) (p : Pattern.t) :
  FileStore.getPattern st id = Some p ->
  Spec.in_range (Pattern.confidence p) ->
  exists p', FileStore.getPattern (Spec.reinforceAll st calls) id = Some p' /\
             Spec.in_range (Pattern.confidence p').
Proof.
  revert st p. induction calls as [|[id' success] calls IH]; intros st p Hget Hr.
  - now exists p.
  - unfold Spec.reinforceAll. cbn [fold_left fst snd].
    destruct (string_dec id' id) as [-> | Hne].
    + apply (IH _ (FileStore.adjust success p)).
      * now apply reinforce_known.
      * unfold Spec.in_range. rewrite adjust_confidence. apply clamp_range.
    + apply (IH _ p); [|exact Hr].
      rewrite reinforce_other; [exact Hget | congruence].
Qed.

End ReinforceFileFacts.

Section ReinforceRowFacts.

Variable f : PostgresStore.Patterns.row -> PostgresStore.Patterns.row.
Hypothesis f_id : forall r, PostgresStore.Patterns.id (f r) = PostgresStore.Patterns.id r.

Lemma update_where_same (id : string) (rows : list PostgresStore.Patterns.row) :
  filter (Spec.hasId id) (PostgresStore.update_where f id rows)
  = map f (filter (Spec.hasId id) rows).
Proof.
  unfold PostgresStore.update_where, Spec.hasId.
  induction rows as [|r rows IH]; simpl; [reflexivity|].
  destruct (String.eqb (PostgresStore.Patterns.id r) id) eqn:E; simpl.
  - now rewrite f_id, E, IH.
  - now rewrite E, IH.
Qed.

Lemma update_where_other (id id' : string) (rows : list PostgresStore.Patterns.row) :
  id' <> id ->
  filter (Spec.hasId id') (PostgresStore.update_where f id rows)
  = filter (Spec.hasId id') rows.
Proof.
  unfold PostgresStore.update_where, Spec.hasId. intros Hne.
  induction rows as [|r rows IH]; simpl; [reflexivity|].
  destruct (String.eqb (PostgresStore.Patterns.id r) id) eqn:E.
  - rewrite f_id. apply String.eqb_eq in E.
    assert (E' : String.eqb (PostgresStore.Patterns.id r) id' = false)
      by (apply String.eqb_neq; congruence).
    now rewrite E', IH.
  - now rewrite IH.
Qed.

Lemma update_where_absent (id : string) (rows : list PostgresStore.Patterns.row) :
  filter (Spec.hasId id) rows = [] -> PostgresStore.update_where f id rows = rows.
Proof.
  unfold PostgresStore.update_where, Spec.hasId.
  induction rows as [|r rows IH]; simpl; [reflexivity|].
  destruct (String.eqb (PostgresStore.Patterns.id r) id); [discriminate|].
  intros H. now rewrite IH.
Qed.

End ReinforceRowFacts.

Section ReinforcePostgresFacts.

Lemma getPattern_rows (db : PostgresStore.t) (id : string) :
  PostgresStore.getPattern db id
  = option_map PostgresStore.rowToPattern
      (hd_error (filter (Spec.hasId id) (PostgresStore.patterns db))).
Proof.
  unfold PostgresStore.getPattern.
  change (fun r => String.eqb (PostgresStore.Patterns.id r) id)
    with (Spec.hasId id).
  now destruct (filter (Spec.hasId id) (PostgresStore.patterns db)).
Qed.

Lemma hundredths_clamp (c a : Z) :
  inject_Z (Z.min 100 (Z.max 10 (c + a))) / 100
  == Spec.clamp (inject_Z c / 100 + inject_Z a / 100) 0.1 1.0.
Proof.
  assert (Hsum : inject_Z c / 100 + inject_Z a / 100 == inject_Z (c + a) / 100)
    by (rewrite inject_Z_plus; field).
  unfold Spec.clamp.
  destruct (Qlt_le_dec (inject_Z c / 100 + inject_Z a / 100) 0.1) as [Hlo | Hlo];
    rewrite Hsum in Hlo.
  - assert (Hz : (c + a < 10)%Z).
    { apply Z.lt_nge. intros Hge. rewrite Zle_Qle in Hge.
      change (inject_Z 10) with 10 in Hge.
      assert (0.1 <= inject_Z (c + a) / 100)
        by (apply Qle_shift_div_l; [reflexivity | lra]).
      lra. }
    rewrite Z.max_l, Z.min_r by lia. reflexivity.
  - assert (Hz : (10 <= c + a)%Z).
    { apply Z.le_ngt. intros Hlt. rewrite Zlt_Qlt in Hlt.
      change (inject_Z 10) with 10 in Hlt.
      assert (inject_Z (c + a) / 100 < 0.1)
        by (apply Qlt_shift_div_r; [reflexivity | lra]).
      lra. }
    rewrite Z.max_r by lia.
    destruct (Qlt_le_dec 1.0 (inject_Z c / 100 + inject_Z a / 100)) as [Hhi | Hhi];
      rewrite Hsum in Hhi.
    + assert (Hz' : (100 < c + a)%Z).
      { apply Z.lt_nge. intros Hge. rewrite Zle_Qle in Hge.
        change (inject_Z 100) with 100 in Hge.
        assert (inject_Z (c + a) / 100 <= 1.0)
          by (apply Qle_shift_div_r; [reflexivity | lra]).
        lra. }
      rewrite Z.min_l by lia. reflexivity.
    + assert (Hz' : (c + a <= 100)%Z).
      { apply Z.le_ngt. intros Hlt. rewrite Zlt_Qlt in Hlt.
        change (inject_Z 100) with 100 in Hlt.
        assert (1.0 < inject_Z (c + a) / 100)
          by (apply Qlt_shift_div_l; [reflexivity | lra]).
        lra. }
      rewrite Z.min_r by lia. exact (Qeq_sym _ _ Hsum).
Qed.

Lemma adjustRow_confidence (now : Z) (success : bool) (r : PostgresStore.Patterns.row) :
  Pattern.confidence (PostgresStore.rowToPattern (PostgresStore.adjustRow now success r))
  == Spec.clamp (Pattern.confidence (PostgresStore.rowToPattern r)
                 + Spec.adjustment success) 0.1 1.0.
Proof.
  unfold PostgresStore.rowToPattern, PostgresStore.adjustRow, Spec.adjustment.
  cbn [Pattern.confidence PostgresStore.Patterns.confidence].
  destruct success.
  - change 0.05 with (inject_Z 5 / 100). apply hundredths_clamp.
  - change (- 0.02) with (inject_Z (-2) / 100). apply hundredths_clamp.
Qed.

Lemma adjustRow_id (now : Z) (success : bool) (r : PostgresStore.Patterns.row) :
  PostgresStore.Patterns.id (PostgresStore.adjustRow now success r)
  = PostgresStore.Patterns.id r.
Proof. reflexivity. Qed.

Lemma reinforce_row_known (now : Z) (db : PostgresStore.t) (id : string)
  (success : bool) (p : Pattern.t) :
  PostgresStore.getPattern db id = Some p ->
  exists p',
    PostgresStore.getPattern (PostgresStore.reinforcePattern now db id success) id
    = Some p' /\
    Pattern.confidence p'
    == Spec.clamp (Pattern.confidence p + Spec.adjustment success) 0.1 1.0.
Proof.
  rewrite !getPattern_rows. unfold PostgresStore.reinforcePattern.
  cbn [PostgresStore.patterns].
  rewrite (update_where_same _ (adjustRow_id now success)).
  destruct (filter (Spec.hasId id) (PostgresStore.patterns db)) as [|r rows];
    [discriminate|].
  intros [= <-]. eexists. split; [reflexivity|]. apply adjustRow_confidence.
Qed.

Lemma reinforce_row_other (now : Z) (db : PostgresStore.t) (id id' : string)
  (success : bool) :
  id' <> id ->
  PostgresStore.getPattern (PostgresStore.reinforcePattern now db id success) id'
  = PostgresStore.getPattern db id'.
Proof.
  intros Hne. rewrite !getPattern_rows. unfold PostgresStore.reinforcePattern.
  cbn [PostgresStore.patterns].
  now rewrite (update_where_other _ (adjustRow_id now success)).
Qed.

Lemma reinforce_row_unknown (now : Z) (db : PostgresStore.t) (id : string)
  (success : bool) :
  PostgresStore.getPattern db id = None ->
  PostgresStore.reinforcePattern now db id success = db.
Proof.
  rewrite getPattern_rows. unfold PostgresStore.reinforcePattern. intros H.
  rewrite update_where_absent; [now destruct db|].
  now destruct (filter (Spec.hasId id) (PostgresStore.patterns db)).
Qed.

Lemma reinforceAllRows_range (calls : list (Z * (string * bool)))
  (db : PostgresStore.t) (id : string) (p : Pattern.t) :
  PostgresStore.getPattern db id = Some p ->
  Spec.in_range (Pattern.confidence p) ->
  exists p', PostgresStore.getPattern (Spec.reinforceAllRows db calls) id = Some p' /\
             Spec.in_range (Pattern.confidence p').
Proof.
  revert db p.
  induction calls as [|[now [id' success]] calls IH]; intros db p Hget Hr.
  - now exists p.
  - unfold Spec.reinforceAllRows. cbn [fold_left fst snd].
    destruct (string_dec id' id) as [-> | Hne].
    + destruct (@reinforce_row_known now db id success p Hget) as (p' & Hget' & Hc).
      apply (IH _ p' Hget').
      unfold Spec.in_range. rewrite Hc. apply clamp_range.
    + apply (IH _ p); [|exact Hr].
      rewrite reinforce_row_other; [exact Hget | congruence].
Qed.

End ReinforcePostgresFacts.

(** C2. In both stores a pattern whose confidence starts in [0.1, 1.0]
    keeps a confidence in [0.1, 1.0] through any sequence of
    [reinforcePattern] calls; one call sets the confidence of the named
    pattern to [clamp(old + 0.05, 0.1, 1.0)] on success and to
    [clamp(old - 0.02, 0.1, 1.0)] otherwise, and a call with an unknown
    id leaves the store as it is. *)
Theorem C2_reinforcePattern_confidence :
  (forall (st : FileStore.t) (id : string) (p : Pattern.t),
     FileStore.getPattern st id = Some p ->
     (Spec.in_range (Pattern.confidence p) ->
      forall calls, exists p',
        FileStore.getPattern (Spec.reinforceAll st calls) id = Some p' /\
        Spec.in_range (Pattern.confidence p')) /\
     (forall success, exists p',
        FileStore.getPattern (FileStore.reinforcePattern st id success) id = Some p' /\
        Pattern.confidence p'
        == Spec.clamp (Pattern.confidence p + Spec.adjustment success) 0.1 1.0)) /\
  (forall (st : FileStore.t) (id : string) (success : bool),
     FileStore.getPattern st id = None ->
     FileStore.reinforcePattern st id success = st) /\
  (forall (db : PostgresStore.t) (id : string) (p : Pattern.t),
     PostgresStore.getPattern db id = Some p ->
     (Spec.in_range (Pattern.confidence p) ->
      forall calls, exists p',
        PostgresStore.getPattern (Spec.reinforceAllRows db calls) id = Some p' /\
        Spec.in_range (Pattern.confidence p')) /\
     (forall now success, exists p',
        PostgresStore.getPattern (PostgresStore.reinforcePattern now db id success) id
        = Some p' /\
        Pattern.confidence p'
        == Spec.clamp (Pattern.confidence p + Spec.adjustment success) 0.1 1.0)) /\
  (forall (now : Z) (db : PostgresStore.t) (id : string) (success : bool),
     PostgresStore.getPattern db id = None ->
     PostgresStore.reinforcePattern now db id success = db).
Proof.
  split; [|split; [|split]].
  - intros st id p Hget. split.
    + intros Hr calls. now apply (@reinforceAll_range calls st id p Hget).
    + intros success. exists (FileStore.adjust success p). split.
      * now apply reinforce_known.
      * apply adjust_confidence.
  - intros st id success. apply reinforce_unknown.
  - intros db id p Hget. split.
    + intros Hr calls. now apply (@reinforceAllRows_range calls db id p Hget).
    + intros now success. now apply reinforce_row_known.
  - intros now db id success. apply reinforce_row_unknown.
Qed.

(** ** Extraction: outcome categories and confidence *)

Section ConfidenceFacts.

Open Scope string_scope.

Lemma filter_all (A : Type) (f : A -> bool) (l : list A) :
  (forall x, In x l -> f x = true) -> filter f l = l.
Proof.
  induction l as [|x l IH]; intros H; simpl; [reflexivity|].
  rewrite (H x (or_introl eq_refl)), IH; [reflexivity|].
  intros y Hy. apply H. now right.
Qed.

Lemma filter_none (A : Type) (f : A -> bool) (l : list A) :
  (forall x, In x l -> f x = false) -> filter f l = [].
Proof.
  induction l as [|x l IH]; intros H; simpl; [reflexivity|].
  rewrite (H x (or_introl eq_refl)). apply IH.
  intros y Hy. apply H. now right.
Qed.

Lemma mentions_spec (vocabulary : list string) (outcome : string) :
  Spec.mentions vocabulary outcome = true <->
  exists w, In w vocabulary /\ Spec.Substring w (JS.toLowerCase outcome).
Proof.
  unfold Spec.mentions. rewrite existsb_exists.
  split; intros [w [Hin Hw]]; exists w; (split; [exact Hin|]);
    now apply includes_spec.
Qed.

(** The success rule comes first: the category is [success] exactly
    when the outcome mentions the success vocabulary. *)
Lemma successful_spec (ep : Episode.t) :
  PatternExtractor.successful ep
  = Spec.mentions Spec.success_vocabulary (Episode.outcome ep).
Proof.
  unfold PatternExtractor.successful, PatternExtractor.categorizeOutcome,
    Spec.mentions, Spec.success_vocabulary. cbn [existsb].
  set (lower := JS.toLowerCase (Episode.outcome ep)).
  destruct (JS.includes lower "success"), (JS.includes lower "understood"),
    (JS.includes lower "completed"), (JS.includes lower "solved");
    try reflexivity.
  cbn [orb].
  now destruct (JS.includes lower "fail" || JS.includes lower "error" ||
                JS.includes lower "confused" || JS.includes lower "stuck").
Qed.

Lemma categorize_success (outcome : string) :
  Spec.mentions Spec.success_vocabulary outcome = true ->
  PatternExtractor.categorizeOutcome outcome = success.
Proof.
  unfold PatternExtractor.categorizeOutcome, Spec.mentions,
    Spec.success_vocabulary. cbn [existsb].
  rewrite orb_false_r, !orb_assoc. now intros ->.
Qed.

Lemma categorize_not_success (outcome : string) :
  Spec.mentions Spec.success_vocabulary outcome = false ->
  PatternExtractor.categorizeOutcome outcome <> success.
Proof.
  unfold PatternExtractor.categorizeOutcome, Spec.mentions,
    Spec.success_vocabulary. cbn [existsb].
  rewrite orb_false_r, !orb_assoc. intros ->.
  now destruct (_ || _).
Qed.

Lemma successes_spec (episodes : list Episode.t) :
  filter PatternExtractor.successful episodes = Spec.successes episodes.
Proof. apply filter_ext, successful_spec. Qed.

Lemma successRate_spec (episodes : list Episode.t) :
  PatternExtractor.successRate episodes
  = Spec.count (Spec.successes episodes) / Spec.count episodes.
Proof.
  unfold PatternExtractor.successRate. now rewrite successes_spec.
Qed.

Lemma extractPattern_some (now : Z) (episodes : list Episode.t)
  (name problemStatement : string) :
  (2 <= List.length episodes)%nat ->
  exists p,
    PatternExtractor.extractPattern now episodes name problemStatement = Some p /\
    Pattern.confidence p
    = JS.Math_min 0.9 (PatternExtractor.successRate episodes) /\
    Pattern.context p
    = (if (0 <? List.length (PatternExtractor.commonContext episodes))%nat
       then PatternExtractor.commonContext episodes else ["general"]).
Proof.
  intros Hlen. unfold PatternExtractor.extractPattern.
  destruct (List.length episodes <? 2)%nat eqn:E.
  - apply Nat.ltb_lt in E. lia.
  - eexists. split; [reflexivity|]. split; reflexivity.
Qed.

End ConfidenceFacts.

(** C3. For at least two episodes the extracted pattern has confidence
    [min(0.9, s / n)], with [n] the number of episodes and [s] the number
    of those whose lower-cased outcome contains "success", "understood",
    "completed" or "solved"; such an outcome is categorized [success]
    whatever else it contains, and two episodes that both mention the
    success vocabulary give confidence 0.9. *)
Theorem C3_extractPattern_confidence (now : Z) (episodes : list Episode.t)
  (name problemStatement : string) :
  (2 <= List.length episodes)%nat ->
  exists p,
    PatternExtractor.extractPattern now episodes name problemStatement = Some p /\
    Pattern.confidence p
    == Qmin 0.9 (Spec.count (Spec.successes episodes) / Spec.count episodes) /\
    (forall ep, In ep (Spec.successes episodes) <->
                In ep episodes /\
                exists w, In w Spec.success_vocabulary /\
                          Spec.Substring w (JS.toLowerCase (Episode.outcome ep))) /\
    (forall outcome,
       Spec.mentions Spec.success_vocabulary outcome = true ->
       PatternExtractor.categorizeOutcome outcome = success) /\
    (List.length episodes = 2%nat ->
     (forall ep, In ep episodes ->
                 Spec.mentions Spec.success_vocabulary (Episode.outcome ep) = true) ->
     Pattern.confidence p == 0.9).
Proof.
  intros Hlen.
  destruct (@extractPattern_some now episodes name problemStatement Hlen) as (p & Hp & Hc & _).
  exists p. split; [exact Hp|].
  assert (Hconf : Pattern.confidence p
                  == Qmin 0.9 (Spec.count (Spec.successes episodes)
                               / Spec.count episodes)).
  { rewrite Hc, Math_min_Qmin, successRate_spec. reflexivity. }
  split; [exact Hconf|]. split; [|split].
  - intros ep. unfold Spec.successes. rewrite filter_In, mentions_spec. reflexivity.
  - apply categorize_success.
  - intros H2 Hall. rewrite Hconf. unfold Spec.successes.
    rewrite filter_all by exact Hall. unfold Spec.count. rewrite H2.
    reflexivity.
Qed.

(** ** Episode similarity *)

Section SetFacts.

Lemma has_In (set : list string) (w : string) :
  JS.has set w = true <-> In w set.
Proof.
  unfold JS.has. rewrite existsb_exists. split.
  - intros [x [Hin Hx]]. apply String.eqb_eq in Hx. now subst.
  - intros Hin. exists w. split; [exact Hin | apply String.eqb_refl].
Qed.

Lemma Set_of_spec (l acc : list string) :
  NoDup acc ->
  NoDup (JS.Set_of acc l) /\
  forall x, In x (JS.Set_of acc l) <-> In x acc \/ In x l.
Proof.
  revert acc. induction l as [|y l IH]; intros acc Hnd; simpl.
  - split; [exact Hnd | intros x; tauto].
  - destruct (existsb (String.eqb y) acc) eqn:E.
    + destruct (IH acc Hnd) as [H1 H2]. split; [exact H1|].
      intros x. rewrite H2. apply (has_In acc y) in E.
      split; [tauto|]. intros [H | [<- | H]]; tauto.
    + assert (Hy : ~ In y acc).
      { intros Hin. apply (has_In acc y) in Hin. unfold JS.has in Hin. congruence. }
      assert (Hnd' : NoDup (acc ++ [y])).
      { apply NoDup_app; [exact Hnd | repeat constructor; simpl; tauto|].
        intros x Hx [<- | []]. contradiction. }
      destruct (IH _ Hnd') as [H1 H2]. split; [exact H1|].
      intros x. rewrite H2, in_app_iff. simpl. tauto.
Qed.

Lemma new_Set_NoDup (l : list string) : NoDup (JS.new_Set l).
Proof. apply Set_of_spec. constructor. Qed.

Lemma new_Set_In (l : list string) (x : string) :
  In x (JS.new_Set l) <-> In x l.
Proof.
  unfold JS.new_Set. destruct (Set_of_spec l (NoDup_nil string)) as [_ H].
  rewrite H. simpl. tauto.
Qed.

(** The words that the code counts are the distinct shared tokens. *)
Lemma commonWords_length (query context : string) :
  List.length (FileStore.commonWords (JS.toLowerCase query) (JS.toLowerCase context))
  = List.length (Spec.sharedTokens query context).
Proof.
  apply Permutation_length, NoDup_Permutation.
  - apply NoDup_filter, new_Set_NoDup.
  - apply NoDup_nodup.
  - intros w. unfold FileStore.commonWords, Spec.sharedTokens.
    rewrite nodup_In, !filter_In, has_In, !new_Set_In, existsb_exists.
    split; intros [H1 H2]; (split; [exact H1|]).
    + exists w. split; [exact H2 | apply String.eqb_refl].
    + destruct H2 as [x [Hin Hx]]. apply String.eqb_eq in Hx. now subst.
Qed.

End SetFacts.

Section SortMore.

Variables A B : Type.

Lemma insert_desc_map (key : B -> Q) (h : A -> B) (x : A) (l : list A) :
  JS.insert_desc key (h x) (map h l)
  = map h (JS.insert_desc (fun a => key (h a)) x l).
Proof.
  induction l as [|y l IH]; simpl; [reflexivity|].
  destruct (Qle_bool (key (h y)) (key (h x))); simpl; [reflexivity|].
  now rewrite IH.
Qed.

Lemma sort_desc_map (key : B -> Q) (h : A -> B) (l : list A) :
  JS.sort_desc key (map h l) = map h (JS.sort_desc (fun a => key (h a)) l).
Proof.
  induction l as [|x l IH]; simpl; [reflexivity|].
  now rewrite IH, insert_desc_map.
Qed.

Lemma insert_desc_ext (f g : A -> Q) (x : A) (l : list A) :
  (forall a, f a == g a) -> JS.insert_desc f x l = JS.insert_desc g x l.
Proof.
  intros H. induction l as [|y l IH]; simpl; [reflexivity|].
  rewrite (Qleb_comp (f y) (g y) (H y) (f x) (g x) (H x)), IH. reflexivity.
Qed.

Lemma sort_desc_ext (f g : A -> Q) (l : list A) :
  (forall a, f a == g a) -> JS.sort_desc f l = JS.sort_desc g l.
Proof.
  intros H. induction l as [|x l IH]; simpl; [reflexivity|].
  now rewrite IH, (@insert_desc_ext f g x _ H).
Qed.

Lemma filter_map_swap (p : B -> bool) (h : A -> B) (l : list A) :
  filter p (map h l) = map h (filter (fun a => p (h a)) l).
Proof.
  induction l as [|x l IH]; simpl; [reflexivity|].
  destruct (p (h x)); simpl; now rewrite IH.
Qed.

End SortMore.

Section SimilarityFacts.

Open Scope string_scope.

Variable query : string.

Lemma score_spec (ep : Episode.t) :
  FileStore.score query ep == Spec.similarity query ep.
Proof.
  unfold FileStore.score, Spec.similarity, Spec.count.
  rewrite commonWords_length.
  rewrite (orb_comm (JS.includes (JS.toLowerCase (Episode.context ep)) _)).
  destruct (_ || _); lra.
Qed.

Lemma similarity_nonneg (ep : Episode.t) : 0 <= Spec.similarity query ep.
Proof.
  unfold Spec.similarity, Spec.count.
  assert (0 <= inject_Z (Z.of_nat (List.length
                 (Spec.sharedTokens query (Episode.context ep))))).
  { change 0 with (inject_Z 0). rewrite <- Zle_Qle. lia. }
  destruct (_ || _); lra.
Qed.

Lemma positive_score (ep : Episode.t) :
  negb (Qle_bool (FileStore.score query ep) 0)
  = negb (Qeq_bool (Spec.similarity query ep) 0).
Proof.
  f_equal. rewrite (Qleb_comp _ _ (score_spec ep) 0 0 (Qeq_refl 0)).
  pose proof (similarity_nonneg ep) as Hge.
  destruct (Qeq_bool (Spec.similarity query ep) 0) eqn:E.
  - apply Qeq_bool_iff in E. apply Qle_bool_iff. rewrite E. apply Qle_refl.
  - destruct (Qle_bool (Spec.similarity query ep) 0) eqn:E'; [|reflexivity].
    apply Qle_bool_iff in E'.
    assert (Heq : Spec.similarity query ep == 0) by lra.
    apply Qeq_bool_iff in Heq. congruence.
Qed.

Lemma slice0_firstn (A : Type) (limit : Z) (l : list A) :
  (0 <= limit)%Z -> JS.slice0 limit l = firstn (Z.to_nat limit) l.
Proof.
  intros H. unfold JS.slice0.
  destruct (limit <? 0)%Z eqn:E; [|reflexivity].
  apply Z.ltb_lt in E. lia.
Qed.


End SimilarityFacts.

Section LikeFacts.

Open Scope string_scope.





End LikeFacts.

Section SelectFacts.

Variable A : Type.
Variable cond : A -> option bool.


End SelectFacts.

Section PostgresSimilarFacts.

Open Scope string_scope.


End PostgresSimilarFacts.


(** ** Listing the patterns *)

Section ListingFacts.

Lemma StronglySorted_map (A B : Type) (R : A -> A -> Prop) (R' : B -> B -> Prop)
  (h : A -> B) (l : list A) :
  (forall a b, R a b -> R' (h a) (h b)) ->
  StronglySorted R l -> StronglySorted R' (map h l).
Proof.
  intros Hmono. induction 1 as [|x l Hs IH Hall]; simpl; constructor.
  - exact IH.
  - apply Forall_map. eapply Forall_impl; [|exact Hall]. intros b. apply Hmono.
Qed.

Lemma hundredths_mono (a b : Z) :
  inject_Z b <= inject_Z a -> inject_Z b / 100 <= inject_Z a / 100.
Proof.
  intros H. unfold Qdiv. apply Qmult_le_compat_r; [exact H | discriminate].
Qed.

(** The relational store lists the patterns by descending confidence. *)
Lemma getAllPatterns_rows_sorted (db : PostgresStore.t) :
  StronglySorted (Spec.desc Pattern.confidence) (PostgresStore.getAllPatterns db) /\
  Permutation (map PostgresStore.rowToPattern (PostgresStore.patterns db))
              (PostgresStore.getAllPatterns db).
Proof.
  unfold PostgresStore.getAllPatterns. split.
  - eapply StronglySorted_map; [|apply sort_desc_sorted].
    intros a b. unfold Spec.desc, PostgresStore.rowToPattern.
    cbn [Pattern.confidence]. apply hundredths_mono.
  - apply Permutation_map, sort_desc_perm.
Qed.

End ListingFacts.

(** C5. The relational store returns the patterns by descending
    confidence; the file-backed store returns them in insertion order,
    so the freshly seeded store lists confidence 0.85 before 0.9 and its
    listing is not in descending order. *)
Theorem C5_getAllPatterns_order :
  (forall db : PostgresStore.t,
     StronglySorted (Spec.desc Pattern.confidence)
                    (PostgresStore.getAllPatterns db) /\
     Permutation (map PostgresStore.rowToPattern (PostgresStore.patterns db))
                 (PostgresStore.getAllPatterns db)) /\
  map Pattern.confidence
      (FileStore.getAllPatterns (FileStore.initialize 0 FileStore.empty))
  = [0.85; 0.9] /\
  ~ StronglySorted (Spec.desc Pattern.confidence)
      (FileStore.getAllPatterns (FileStore.initialize 0 FileStore.empty)).
Proof.
  split; [exact getAllPatterns_rows_sorted|]. split; [reflexivity|].
  intros Hs. inversion Hs as [|p l _ Hall]; subst.
  inversion Hall as [|q l' Hle _]; subst.
  unfold Spec.desc in Hle. cbn in Hle. revert Hle. apply Qlt_not_le. reflexivity.
Qed.

(** ** Applying a pattern *)

Section ApplyFacts.

Lemma touch_same (now : Z) (p : Pattern.t) :
  Spec.same_but_usage p (FileStore.touch now p).
Proof. repeat split. Qed.


Lemma touchRow_id (now : Z) (r : PostgresStore.Patterns.row) :
  PostgresStore.Patterns.id (PostgresStore.touchRow now r)
  = PostgresStore.Patterns.id r.
Proof. reflexivity. Qed.





End ApplyFacts.


(** ** Extraction: common context *)


(** C7. The loop counts every occurrence of a token, not the episodes
    that have it: of three episodes with the contexts "test test",
    "alphabet" and "betamax", only the first has the token "test", which
    is fewer than half of them, yet its count is 2, the threshold is
    1.5, and the extracted context is ["test"] and not ["general"]. *)
Theorem C7_commonContext_counts_occurrences :
  Spec.documentFrequency "test" CommonContextExample.episodes = 1%nat /\
  List.length CommonContextExample.episodes = 3%nat /\
  PatternExtractor.contextCounts CommonContextExample.episodes
  = [("test"%string, 2%nat); ("alphabet"%string, 1%nat); ("betamax"%string, 1%nat)] /\
  exists p,
    PatternExtractor.extractPattern 0 CommonContextExample.episodes
      "Sample" "problem" = Some p /\
    Pattern.context p = ["test"%string].
Proof.
  split; [reflexivity|]. split; [reflexivity|]. split; [reflexivity|].
  eexists. split; reflexivity.
Qed.

(** ** Extraction from too few episodes *)

Section TooFewFacts.

Lemma extractPattern_too_few (now : Z) (episodes : list Episode.t)
  (name problemStatement : string) :
  (List.length episodes < 2)%nat ->
  PatternExtractor.extractPattern now episodes name problemStatement = None.
Proof.
  intros H. unfold PatternExtractor.extractPattern.
  apply Nat.ltb_lt in H. now rewrite H.
Qed.

Lemma lookupAll_length (m : list (string * Episode.t)) (ids : list string) :
  List.length (FileStore.lookupAll m ids)
  = List.length (filter (fun id => Spec.is_some (JS.Map_get m id)) ids).
Proof.
  induction ids as [|i ids IH]; simpl; [reflexivity|].
  destruct (JS.Map_get m i); simpl; now rewrite IH.
Qed.

Lemma extract_file_too_few (now : Z) (st : FileStore.t) (ids : list string)
  (name problemStatement : string) :
  (List.length ids < 2)%nat \/ (List.length (Spec.resolved st ids) < 2)%nat ->
  FileStore.extractPatternFromEpisodes now st ids name problemStatement
  = (None, st).
Proof.
  intros H. unfold FileStore.extractPatternFromEpisodes.
  assert (Hlen : (List.length (FileStore.lookupAll (FileStore.episodes st) ids) < 2)%nat).
  { rewrite lookupAll_length. fold (Spec.resolved st ids).
    destruct H as [H | H]; [|exact H].
    eapply Nat.le_lt_trans; [apply filter_length_le | exact H]. }
  apply Nat.ltb_lt in Hlen. now rewrite Hlen.
Qed.

Lemma NoDup_map_filter (A B : Type) (h : A -> B) (f : A -> bool) (l : list A) :
  NoDup (map h l) -> NoDup (map h (filter f l)).
Proof.
  induction l as [|x l IH]; simpl; [auto|].
  intros Hnd. inversion Hnd as [|y l' Hnotin Hnd']; subst.
  destruct (f x); simpl; [|now apply IH].
  constructor; [|now apply IH].
  intros Hin. apply Hnotin. apply in_map_iff in Hin as [z [Hz Hin]].
  apply in_map_iff. exists z. split; [exact Hz|].
  now apply filter_In in Hin as [Hin _].
Qed.

(** Under the primary key the selected rows are no more than the
    supplied ids that resolve. *)
Lemma selected_rows_length (db : PostgresStore.t) (ids : list string) :
  Spec.primary_key db ->
  (List.length
     (filter (fun r => existsb (String.eqb (PostgresStore.Episodes.id r)) ids)
             (PostgresStore.episodes db))
   <= List.length (Spec.resolvedRows db ids))%nat.
Proof.
  intros Hpk.
  rewrite <- (length_map PostgresStore.Episodes.id).
  apply NoDup_incl_length; [now apply NoDup_map_filter|].
  intros x Hx. apply in_map_iff in Hx as [r [<- Hr]].
  apply filter_In in Hr as [Hr Hid].
  apply existsb_exists in Hid as [i [Hi Heq]]. apply String.eqb_eq in Heq.
  unfold Spec.resolvedRows. apply filter_In. split; [now rewrite Heq|].
  apply existsb_exists. exists r. split; [exact Hr | apply String.eqb_refl].
Qed.

Lemma extract_rows_too_few (now : Z) (db : PostgresStore.t) (ids : list string)
  (name problemStatement : string) :
  Spec.primary_key db ->
  (List.length ids < 2)%nat \/ (List.length (Spec.resolvedRows db ids) < 2)%nat ->
  PostgresStore.extractPatternFromEpisodes now db ids name problemStatement
  = Ok (None, db).
Proof.
  intros Hpk H. unfold PostgresStore.extractPatternFromEpisodes.
  rewrite length_map.
  assert (Hres : (List.length (Spec.resolvedRows db ids) < 2)%nat).
  { destruct H as [H | H]; [|exact H].
    eapply Nat.le_lt_trans; [apply filter_length_le | exact H]. }
  pose proof (selected_rows_length ids Hpk) as Hle.
  assert (Hlen : (List.length
                    (filter (fun r => existsb (String.eqb (PostgresStore.Episodes.id r)) ids)
                            (PostgresStore.episodes db)) < 2)%nat) by lia.
  apply Nat.ltb_lt in Hlen. now rewrite Hlen.
Qed.

(** [saveEpisode] keeps the primary key. *)
Lemma upsertEpisode_ids (now : Z) (e : Episode.t)
  (rows : list PostgresStore.Episodes.row) :
  map PostgresStore.Episodes.id (PostgresStore.upsertEpisode now e rows)
  = if existsb (fun r => String.eqb (PostgresStore.Episodes.id r) (Episode.id e)) rows
    then map PostgresStore.Episodes.id rows
    else (map PostgresStore.Episodes.id rows ++ [Episode.id e])%list.
Proof.
  induction rows as [|r rows IH]; simpl; [reflexivity|].
  destruct (String.eqb (PostgresStore.Episodes.id r) (Episode.id e)); simpl;
    [reflexivity|].
  rewrite IH. now destruct (existsb _ rows).
Qed.

Lemma saveEpisode_primary_key (now : Z) (db db' : PostgresStore.t) (e : Episode.t) :
  Spec.primary_key db ->
  PostgresStore.saveEpisode now db e = Ok db' ->
  Spec.primary_key db'.
Proof.
  unfold Spec.primary_key, PostgresStore.saveEpisode. intros Hpk.
  destruct (255 <? _)%nat; [discriminate|]. intros [= <-].
  cbn [PostgresStore.episodes]. rewrite upsertEpisode_ids.
  destruct (existsb _ _) eqn:E; [exact Hpk|].
  apply NoDup_app; [exact Hpk | repeat constructor; simpl; tauto|].
  intros x Hx [<- | []].
  apply in_map_iff in Hx as [r [Hid Hr]].
  assert (existsb (fun r => String.eqb (PostgresStore.Episodes.id r) (Episode.id e))
                  (PostgresStore.episodes db) = true).
  { apply existsb_exists. exists r. split; [exact Hr|]. now apply String.eqb_eq. }
  congruence.
Qed.

End TooFewFacts.

(** C8. When fewer than two episodes are available, extraction returns
    nothing, fails with no error and saves no pattern: [extractPattern]
    on fewer than two episodes is [null], and
    [extractPatternFromEpisodes] returns [null] and leaves the store as
    it was when fewer than two ids are supplied or fewer than two of
    them resolve to stored episodes; in the relational store the ids
    are the primary key of the [episodes] table. *)
Theorem C8_extraction_too_few (now : Z) (name problemStatement : string) :
  (forall episodes : list Episode.t,
     (List.length episodes < 2)%nat ->
     PatternExtractor.extractPattern now episodes name problemStatement = None) /\
  (forall (st : FileStore.t) (ids : list string),
     (List.length ids < 2)%nat \/ (List.length (Spec.resolved st ids) < 2)%nat ->
     FileStore.extractPatternFromEpisodes now st ids name problemStatement
     = (None, st)) /\
  (forall (db : PostgresStore.t) (ids : list string),
     Spec.primary_key db ->
     (List.length ids < 2)%nat \/ (List.length (Spec.resolvedRows db ids) < 2)%nat ->
     PostgresStore.extractPatternFromEpisodes now db ids name problemStatement
     = Ok (None, db)).
Proof.
  split; [|split].
  - intros episodes. apply extractPattern_too_few.
  - intros st ids. apply extract_file_too_few.
  - intros db ids. apply extract_rows_too_few.
Qed.

(** ** Patterns of confidence 0 and the empty query *)

Section ZeroConfidenceFacts.

Open Scope string_scope.

Lemma zero_confidence_relevance (query : string) (p : Pattern.t) :
  Pattern.confidence p == 0 -> Spec.expected_relevance query p == 0.
Proof.
  intros H. unfold Spec.expected_relevance.
  assert (Hx : Pattern.confidence p * Spec.raw query p == 0)
    by (rewrite H; apply Qmult_0_l).
  rewrite Q.min_r; [exact Hx | rewrite Hx; discriminate].
Qed.

Lemma zero_confidence_excluded (stored : list Pattern.t) (query : string)
  (p : Pattern.t) :
  Pattern.confidence p == 0 ->
  ~ In p (map pattern (Search.searchPatterns stored query)).
Proof.
  intros H. destruct (search_meets_spec query stored) as (_ & _ & Hzero & _).
  apply Hzero. now apply zero_confidence_relevance.
Qed.

Lemma no_success_rate (episodes : list Episode.t) :
  (forall ep, In ep episodes ->
              PatternExtractor.categorizeOutcome (Episode.outcome ep) <> success) ->
  PatternExtractor.successRate episodes == 0.
Proof.
  intros H. unfold PatternExtractor.successRate.
  rewrite filter_none; [reflexivity|].
  intros ep Hep. specialize (H ep Hep). unfold PatternExtractor.successful.
  now destruct (PatternExtractor.categorizeOutcome (Episode.outcome ep)).
Qed.

End ZeroConfidenceFacts.

(** C9. For at least two episodes none of which is categorized
    [success], [extractPattern] returns a pattern of confidence 0; and a
    pattern of confidence 0 has relevance 0 for every query and is in no
    result of [searchPatterns], in either store. *)
Theorem C9_zero_confidence_never_found (now : Z) (episodes : list Episode.t)
  (name problemStatement : string) :
  (2 <= List.length episodes)%nat ->
  (forall ep, In ep episodes ->
              PatternExtractor.categorizeOutcome (Episode.outcome ep) <> success) ->
  (exists p,
     PatternExtractor.extractPattern now episodes name problemStatement = Some p /\
     Pattern.confidence p == 0) /\
  (forall (p : Pattern.t) (query : string),
     Pattern.confidence p == 0 ->
     Search.rawScore query p * Pattern.confidence p == 0 /\
     Spec.expected_relevance query p == 0 /\
     (forall st : FileStore.t,
        ~ In p (map pattern (FileStore.searchPatterns st query))) /\
     (forall db : PostgresStore.t,
        ~ In p (map pattern (PostgresStore.searchPatterns db query)))).
Proof.
  intros Hlen Hnone. split.
  - destruct (extractPattern_some now episodes name problemStatement Hlen)
      as (p & Hp & Hc & _).
    exists p. split; [exact Hp|].
    rewrite Hc, Math_min_Qmin, (no_success_rate episodes Hnone). reflexivity.
  - intros p query Hzero. split; [rewrite Hzero; apply Qmult_0_r|].
    split; [now apply zero_confidence_relevance|].
    split; intros s; now apply zero_confidence_excluded.
Qed.

Section EmptyQueryFacts.

Open Scope string_scope.

Variable p : Pattern.t.
Hypothesis name_nonempty : Pattern.name p <> "".
Hypothesis tags_nonempty : Forall (fun tag => tag <> "") (Pattern.context p).





End EmptyQueryFacts.




(** ** The theorems on concrete stores *)

Section Instances.

Open Scope string_scope.

(** C2 on the seeded stores: a success followed by a failure, one
    success, and an id that is not stored. *)
Lemma C2_reinforce_seeded :
  (exists p',
     FileStore.getPattern
       (Spec.reinforceAll Examples.seeded
          [("progressive-disclosure", true); ("progressive-disclosure", false)])
       "progressive-disclosure" = Some p' /\
     Spec.in_range (Pattern.confidence p')) /\
  (exists p',
     FileStore.getPattern
       (FileStore.reinforcePattern Examples.seeded "progressive-disclosure" true)
       "progressive-disclosure" = Some p' /\
     Pattern.confidence p' == Spec.clamp (0.85 + Spec.adjustment true) 0.1 1.0) /\
  FileStore.reinforcePattern Examples.seeded "missing" true = Examples.seeded /\
  (exists p',
     PostgresStore.getPattern
       (Spec.reinforceAllRows Examples.seededRows
          [(1%Z, ("progressive-disclosure", true));
           (2%Z, ("progressive-disclosure", false))])
       "progressive-disclosure" = Some p' /\
     Spec.in_range (Pattern.confidence p')) /\
  (exists p',
     PostgresStore.getPattern
       (PostgresStore.reinforcePattern 1 Examples.seededRows
          "progressive-disclosure" false)
       "progressive-disclosure" = Some p' /\
     Pattern.confidence p'
     == Spec.clamp (inject_Z 85 / 100 + Spec.adjustment false) 0.1 1.0) /\
  PostgresStore.reinforcePattern 1 Examples.seededRows "missing" true
  = Examples.seededRows.
Proof.
  destruct C2_reinforcePattern_confidence as (Hfile & Hnone & Hrows & Hrows_none).
  split; [|split; [|split; [|split; [|split]]]].
  - edestruct (Hfile Examples.seeded "progressive-disclosure") as [Hseq _];
      [reflexivity|].
    apply Hseq. split; vm_compute; discriminate.
  - edestruct (Hfile Examples.seeded "progressive-disclosure") as [_ Hstep];
      [reflexivity|].
    exact (Hstep true).
  - apply Hnone. reflexivity.
  - edestruct (Hrows Examples.seededRows "progressive-disclosure") as [Hseq _];
      [reflexivity|].
    apply Hseq. split; vm_compute; discriminate.
  - edestruct (Hrows Examples.seededRows "progressive-disclosure") as [_ Hstep];
      [reflexivity|].
    exact (Hstep 1%Z false).
  - apply Hrows_none. reflexivity.
Defined.

(** C3 on the two debugging episodes: both outcomes mention the success
    vocabulary, the first one next to the word "error". *)
Lemma C3_confidence_debugging :
  (2 <= List.length [Examples.debug1; Examples.debug2])%nat /\
  exists p,
    PatternExtractor.extractPattern 0 [Examples.debug1; Examples.debug2]
      "Systematic Debugging" "Bugs are hard to find" = Some p /\
    Pattern.confidence p == 0.9.
Proof.
  split; [apply Nat.le_refl|].
  destruct (C3_extractPattern_confidence 0 [Examples.debug1; Examples.debug2]
              "Systematic Debugging" "Bugs are hard to find" (Nat.le_refl 2))
    as (p & Hp & _ & _ & _ & Htwo).
  exists p. split; [exact Hp|]. apply Htwo; [reflexivity|].
  intros ep [<- | [<- | []]]; reflexivity.
Defined.


(** C8 on one episode, on one id that resolves and one that does not,
    and on a single id. *)
Lemma C8_too_few_examples :
  PatternExtractor.extractPattern 0 [Examples.recursion] "Name" "Problem" = None /\
  FileStore.extractPatternFromEpisodes 0 Examples.withEpisode
    ["ep-001"; "ep-002"] "Name" "Problem" = (None, Examples.withEpisode) /\
  Spec.primary_key Examples.rowsWithEpisode /\
  PostgresStore.extractPatternFromEpisodes 0 Examples.rowsWithEpisode
    ["ep-001"; "ep-002"] "Name" "Problem" = Ok (None, Examples.rowsWithEpisode) /\
  PostgresStore.extractPatternFromEpisodes 0 Examples.rowsWithEpisode
    ["ep-001"] "Name" "Problem" = Ok (None, Examples.rowsWithEpisode).
Proof.
  destruct (C8_extraction_too_few 0 "Name" "Problem") as (Hex & Hfile & Hrows).
  assert (Hpk : Spec.primary_key Examples.rowsWithEpisode).
  { constructor; [intros [] | constructor]. }
  split; [|split; [|split; [|split]]].
  - apply Hex. apply Nat.lt_succ_diag_r.
  - apply Hfile. right. apply Nat.lt_succ_diag_r.
  - exact Hpk.
  - apply Hrows; [exact Hpk|]. right. apply Nat.lt_succ_diag_r.
  - apply Hrows; [exact Hpk|]. left. apply Nat.lt_succ_diag_r.
Defined.

(** C9 on two episodes without a success and on a stored pattern of
    confidence 0 that matches the query. *)
Lemma C9_dormant_never_found :
  (exists p,
     PatternExtractor.extractPattern 0 [Examples.stuck1; Examples.stuck2]
       "Porting" "Scripts break" = Some p /\
     Pattern.confidence p == 0) /\
  FileStore.getPattern (FileStore.savePattern Examples.seeded Examples.dormant)
    "dormant" = Some Examples.dormant /\
  ~ In Examples.dormant
       (map pattern
          (FileStore.searchPatterns
             (FileStore.savePattern Examples.seeded Examples.dormant)
             "user is learning something new")).
Proof.
  assert (Hnone : forall ep, In ep [Examples.stuck1; Examples.stuck2] ->
            PatternExtractor.categorizeOutcome (Episode.outcome ep) <> success).
  { intros ep [<- | [<- | []]]; vm_compute; discriminate. }
  destruct (C9_zero_confidence_never_found 0 [Examples.stuck1; Examples.stuck2]
              "Porting" "Scripts break" (Nat.le_refl 2) Hnone) as [Hex Hsearch].
  split; [exact Hex|]. split; [reflexivity|].
  destruct (Hsearch Examples.dormant "user is learning something new"
              (Qeq_refl 0)) as (_ & _ & Hfile & _).
  apply Hfile.
Defined.


End Instances.

Section SimilarityInstances.

Open Scope string_scope.



End SimilarityInstances.

Unset Implicit Arguments.

(** ** Saving and reading back *)

Section RoundingFacts.

Lemma floor_half_bounds (n d : Z) :
  (0 < d)%Z ->
  (2 * d * ((2 * n + d) / (2 * d)) <= 2 * n + d < 2 * d * ((2 * n + d) / (2 * d)) + 2 * d)%Z.
Proof.
  intros Hd.
  pose proof (Z.div_mod (2 * n + d) (2 * d)) as Hdm.
  pose proof (Z.mod_pos_bound (2 * n + d) (2 * d)) as Hb.
  lia.
Qed.

(** Rounding moves a number by at most one half. *)
Lemma round_half_away_near (q : Q) :
  - (1 # 2) <= inject_Z (Sql.round_half_away q) - q /\
  inject_Z (Sql.round_half_away q) - q <= 1 # 2.
Proof.
  destruct q as [n d]. unfold Sql.round_half_away. cbn [Qnum Qden].
  destruct (n <? 0)%Z eqn:E.
  - pose proof (@floor_half_bounds (- n) (Zpos d) eq_refl) as Hb.
    set (r := ((2 * - n + Zpos d) / (2 * Zpos d))%Z) in *.
    unfold Qle, Qminus, Qplus, Qopp, inject_Z. cbn [Qnum Qden].
    split; nia.
  - pose proof (@floor_half_bounds n (Zpos d) eq_refl) as Hb.
    set (r := ((2 * n + Zpos d) / (2 * Zpos d))%Z) in *.
    unfold Qle, Qminus, Qplus, Qopp, inject_Z. cbn [Qnum Qden].
    split; nia.
Qed.


End RoundingFacts.

Section SaveFacts.

Open Scope string_scope.

Lemma upsertPattern_same (now h : Z) (p : Pattern.t)
  (rows : list PostgresStore.Patterns.row) :
  exists r' rest,
    filter (Spec.hasId (Pattern.id p)) (PostgresStore.upsertPattern now h p rows)
    = r' :: rest /\
    PostgresStore.Patterns.id r' = Pattern.id p /\
    PostgresStore.Patterns.name r' = Pattern.name p /\
    PostgresStore.Patterns.context r' = Pattern.context p /\
    PostgresStore.Patterns.problem r' = Pattern.problem p /\
    PostgresStore.Patterns.solution r' = Pattern.solution p /\
    PostgresStore.Patterns.examples r' = Pattern.examples p /\
    PostgresStore.Patterns.relations r' = Pattern.relations p /\
    PostgresStore.Patterns.confidence r' = h /\
    PostgresStore.Patterns.usage_count r' = Pattern.usageCount p /\
    PostgresStore.Patterns.last_used_at r' = Pattern.lastUsedAt p /\
    PostgresStore.Patterns.created_at r'
    = match filter (Spec.hasId (Pattern.id p)) rows with
      | [] => Pattern.createdAt p
      | r :: _ => PostgresStore.Patterns.created_at r
      end.
Proof.
  unfold Spec.hasId. induction rows as [|r rows IH]; cbn [PostgresStore.upsertPattern].
  - cbn [filter PostgresStore.Patterns.id]. rewrite String.eqb_refl.
    do 2 eexists. split; [reflexivity|]. repeat split.
  - destruct (String.eqb (PostgresStore.Patterns.id r) (Pattern.id p)) eqn:E.
    + cbn [filter PostgresStore.Patterns.id]. rewrite E.
      do 2 eexists. split; [reflexivity|].
      apply String.eqb_eq in E. repeat split; assumption.
    + cbn [filter]. rewrite E. exact IH.
Qed.

Lemma upsertPattern_other (now h : Z) (p : Pattern.t) (id' : string)
  (rows : list PostgresStore.Patterns.row) :
  id' <> Pattern.id p ->
  filter (Spec.hasId id') (PostgresStore.upsertPattern now h p rows)
  = filter (Spec.hasId id') rows.
Proof.
  intros Hne. unfold Spec.hasId.
  assert (Hp : String.eqb (Pattern.id p) id' = false)
    by (apply String.eqb_neq; congruence).
  induction rows as [|r rows IH]; cbn [PostgresStore.upsertPattern].
  - cbn [filter PostgresStore.Patterns.id]. now rewrite Hp.
  - destruct (String.eqb (PostgresStore.Patterns.id r) (Pattern.id p)) eqn:E.
    + cbn [filter PostgresStore.Patterns.id].
      apply String.eqb_eq in E. rewrite E, Hp. reflexivity.
    + cbn [filter]. now rewrite IH.
Qed.

Lemma savePattern_ok (now : Z) (db db' : PostgresStore.t) (p : Pattern.t) :
  PostgresStore.savePattern now db p = Ok db' ->
  exists h,
    (String.length (Pattern.id p) <= 255)%nat /\
    (String.length (Pattern.name p) <= 255)%nat /\
    h = Sql.round_half_away (Pattern.confidence p * 100) /\
    (0 <= h <= 100)%Z /\
    db' = {| PostgresStore.patterns :=
               PostgresStore.upsertPattern now h p (PostgresStore.patterns db);
             PostgresStore.episodes := PostgresStore.episodes db |}.
Proof.
  unfold PostgresStore.savePattern, Sql.decimal_3_2.
  destruct (255 <? String.length (Pattern.id p))%nat eqn:E1; [discriminate|].
  destruct (255 <? String.length (Pattern.name p))%nat eqn:E2; [discriminate|].
  destruct (Z.abs _ <? 1000)%Z; [|discriminate].
  destruct ((0 <=? _) && (_ <=? 100))%Z eqn:E3; [|discriminate].
  intros [= <-]. eexists. apply Nat.ltb_ge in E1, E2.
  apply andb_true_iff in E3 as [H1 H2]. apply Z.leb_le in H1, H2.
  repeat split; try assumption.
Qed.

End SaveFacts.

(** X1. In the file-backed store a saved pattern is read back unchanged
    under its id, every other id reads as before, and the episodes are
    untouched; a saved episode is found again by its id and replaces an
    earlier episode of that id. *)
Theorem file_save_then_get (st : FileStore.t) (p : Pattern.t) (e : Episode.t) :
  FileStore.getPattern (FileStore.savePattern st p) (Pattern.id p) = Some p /\
  (forall id', id' <> Pattern.id p ->
     FileStore.getPattern (FileStore.savePattern st p) id'
     = FileStore.getPattern st id') /\
  FileStore.episodes (FileStore.savePattern st p) = FileStore.episodes st /\
  JS.Map_get (FileStore.episodes (FileStore.saveEpisode st e)) (Episode.id e)
  = Some e /\
  (forall id', id' <> Episode.id e ->
     JS.Map_get (FileStore.episodes (FileStore.saveEpisode st e)) id'
     = JS.Map_get (FileStore.episodes st) id') /\
  FileStore.patterns (FileStore.saveEpisode st e) = FileStore.patterns st.
Proof.
  unfold FileStore.getPattern, FileStore.savePattern, FileStore.saveEpisode.
  cbn [FileStore.patterns FileStore.episodes].
  split; [apply Map_get_set_same|]. split; [intros; now apply Map_get_set_other|].
  split; [reflexivity|]. split; [apply Map_get_set_same|].
  split; [intros; now apply Map_get_set_other | reflexivity].
Qed.

(** X2. In the relational store a pattern that [savePattern] accepts is
    read back with the same fields, except that the confidence is
    rounded to hundredths (it moves by at most 0.005) and that
    [createdAt] stays that of the row that already had the id; every
    other id reads as before and the episodes are untouched. *)
Theorem rows_save_then_get (now : Z) (db db' : PostgresStore.t) (p : Pattern.t) :
  PostgresStore.savePattern now db p = Ok db' ->
  exists p',
    PostgresStore.getPattern db' (Pattern.id p) = Some p' /\
    Pattern.id p' = Pattern.id p /\
    Pattern.name p' = Pattern.name p /\
    Pattern.context p' = Pattern.context p /\
    Pattern.problem p' = Pattern.problem p /\
    Pattern.solution p' = Pattern.solution p /\
    Pattern.examples p' = Pattern.examples p /\
    Pattern.relations p' = Pattern.relations p /\
    Pattern.usageCount p' = Pattern.usageCount p /\
    Pattern.lastUsedAt p' = Pattern.lastUsedAt p /\
    Pattern.createdAt p'
    = match PostgresStore.getPattern db (Pattern.id p) with
      | Some old => Pattern.createdAt old
      | None => Pattern.createdAt p
      end /\
    - (1 # 200) <= Pattern.confidence p' - Pattern.confidence p /\
    Pattern.confidence p' - Pattern.confidence p <= 1 # 200 /\
    (forall id', id' <> Pattern.id p ->
       PostgresStore.getPattern db' id' = PostgresStore.getPattern db id') /\
    PostgresStore.episodes db' = PostgresStore.episodes db.
Proof.
  intros Hsave. apply savePattern_ok in Hsave as (h & _ & _ & Hh & _ & ->).
  destruct (upsertPattern_same now h p (PostgresStore.patterns db))
    as (r' & rest & Hf & Hid & Hname & Hctx & Hprob & Hsol & Hex & Hrel & Hconf
        & Huse & Hlast & Hcreated).
  exists (PostgresStore.rowToPattern r').
  rewrite !getPattern_rows. cbn [PostgresStore.patterns PostgresStore.episodes].
  rewrite Hf. cbn [hd_error option_map PostgresStore.rowToPattern Pattern.id
    Pattern.name Pattern.context Pattern.problem Pattern.solution Pattern.examples
    Pattern.relations Pattern.usageCount Pattern.lastUsedAt Pattern.createdAt
    Pattern.confidence].
  repeat (split; [first [reflexivity | assumption]|]).
  split.
  { rewrite Hcreated.
    now destruct (filter (Spec.hasId (Pattern.id p)) (PostgresStore.patterns db)). }
  pose proof (round_half_away_near (Pattern.confidence p * 100)) as [Hlo Hhi].
  rewrite <- Hh in Hlo, Hhi. rewrite Hconf.
  split; [|split; [|split; [|reflexivity]]].
  - unfold Qdiv. change (/ 100) with (1 # 100). lra.
  - unfold Qdiv. change (/ 100) with (1 # 100). lra.
  - intros id' Hne. rewrite !getPattern_rows. cbn [PostgresStore.patterns].
    now rewrite upsertPattern_other.
Qed.


(** ** Frames and repeated calls *)

Section FrameFacts.

Open Scope string_scope.

Lemma adjust_same (success : bool) (p : Pattern.t) :
  Frame.same_but_confidence p (FileStore.adjust success p).
Proof. repeat split. Qed.

Lemma adjustRow_same (now : Z) (success : bool) (r : PostgresStore.Patterns.row) :
  Frame.same_but_confidence
    (PostgresStore.rowToPattern r)
    (PostgresStore.rowToPattern (PostgresStore.adjustRow now success r)).
Proof. repeat split. Qed.

Lemma Map_set_set (V : Type) (m : list (string * V)) (k : string) (v v' : V) :
  JS.Map_set (JS.Map_set m k v) k v' = JS.Map_set m k v'.
Proof.
  induction m as [|[k0 v0] m IH]; simpl.
  - now rewrite String.eqb_refl.
  - destruct (String.eqb k k0) eqn:E; simpl; rewrite E; [reflexivity|].
    now rewrite IH.
Qed.










End FrameFacts.

Section RepeatedFacts.

Open Scope string_scope.







End RepeatedFacts.

(** X4. In both stores [reinforcePattern] changes nothing but the
    confidence of the named pattern: its other fields, every other
    pattern and the episodes stay as they were. *)
Theorem reinforcePattern_frame (id : string) (success : bool) :
  (forall (st : FileStore.t) (p : Pattern.t),
     FileStore.getPattern st id = Some p ->
     exists p',
       FileStore.getPattern (FileStore.reinforcePattern st id success) id = Some p' /\
       Frame.same_but_confidence p p' /\
       (forall id', id' <> id ->
          FileStore.getPattern (FileStore.reinforcePattern st id success) id'
          = FileStore.getPattern st id') /\
       FileStore.episodes (FileStore.reinforcePattern st id success)
       = FileStore.episodes st) /\
  (forall (now : Z) (db : PostgresStore.t) (p : Pattern.t),
     PostgresStore.getPattern db id = Some p ->
     exists p',
       PostgresStore.getPattern (PostgresStore.reinforcePattern now db id success) id
       = Some p' /\
       Frame.same_but_confidence p p' /\
       (forall id', id' <> id ->
          PostgresStore.getPattern (PostgresStore.reinforcePattern now db id success) id'
          = PostgresStore.getPattern db id') /\
       PostgresStore.episodes (PostgresStore.reinforcePattern now db id success)
       = PostgresStore.episodes db).
Proof.
  split.
  - intros st p Hget. exists (FileStore.adjust success p).
    split; [now apply reinforce_known|]. split; [apply adjust_same|]. split.
    + intros id' Hne. now apply reinforce_other.
    + unfold FileStore.reinforcePattern, FileStore.getPattern in *.
      now rewrite Hget.
  - intros now db p. rewrite getPattern_rows.
    destruct (filter (Spec.hasId id) (PostgresStore.patterns db)) as [|r rows] eqn:E;
      [discriminate|].
    intros [= <-].
    exists (PostgresStore.rowToPattern (PostgresStore.adjustRow now success r)).
    split; [|split; [apply adjustRow_same|split; [|reflexivity]]].
    + rewrite getPattern_rows. unfold PostgresStore.reinforcePattern.
      cbn [PostgresStore.patterns].
      rewrite (update_where_same _ (adjustRow_id now success)), E. reflexivity.
    + intros id' Hne. now apply reinforce_row_other.
Qed.



(** X7. Applying and reinforcing the same pattern commute: in the
    file-backed store both orders end in the same store, and in the
    relational store every id reads the same after both orders. *)
Theorem apply_reinforce_commute (now now' : Z) (id : string) (success : bool) :
  (forall st : FileStore.t,
     snd (FileStore.applyPattern now (FileStore.reinforcePattern st id success) id)
     = FileStore.reinforcePattern (snd (FileStore.applyPattern now st id)) id success) /\
  (forall (db : PostgresStore.t) (id' : string),
     PostgresStore.getPattern
       (snd (PostgresStore.applyPattern now
               (PostgresStore.reinforcePattern now' db id success) id)) id'
     = PostgresStore.getPattern
         (PostgresStore.reinforcePattern now'
            (snd (PostgresStore.applyPattern now db id)) id success) id').
Proof.
  split.
  - intros st. unfold FileStore.applyPattern, FileStore.reinforcePattern.
    destruct (JS.Map_get (FileStore.patterns st) id) as [p|] eqn:E.
    + cbn [FileStore.patterns FileStore.episodes snd].
      rewrite !Map_get_set_same. cbn [snd FileStore.patterns FileStore.episodes].
      rewrite !Map_set_set. reflexivity.
    + cbn [snd]. rewrite ?E. cbn [snd]. now rewrite ?E.
  - intros db id'. unfold PostgresStore.applyPattern.
    set (rows1 := PostgresStore.update_where (PostgresStore.touchRow now) id _).
    set (rows2 := PostgresStore.update_where (PostgresStore.touchRow now) id
                    (PostgresStore.patterns db)).
    assert (Hsnd : forall (rows : list PostgresStore.Patterns.row) eps,
              snd (match filter (fun r => String.eqb (PostgresStore.Patterns.id r) id) rows with
                   | [] => (None, {| PostgresStore.patterns := rows;
                                     PostgresStore.episodes := eps |})
                   | r :: _ => (Some (PostgresStore.rowToPattern r),
                                {| PostgresStore.patterns := rows;
                                   PostgresStore.episodes := eps |})
                   end)
              = {| PostgresStore.patterns := rows; PostgresStore.episodes := eps |}).
    { intros rows eps. now destruct (filter _ rows). }
    rewrite !Hsnd. rewrite !getPattern_rows.
    unfold PostgresStore.reinforcePattern. cbn [PostgresStore.patterns].
    subst rows1 rows2. unfold PostgresStore.reinforcePattern.
    cbn [PostgresStore.patterns].
    destruct (string_dec id' id) as [-> | Hne].
    + rewrite (update_where_same _ (touchRow_id now)),
        (update_where_same _ (adjustRow_id now' success)),
        (update_where_same _ (adjustRow_id now' success)),
        (update_where_same _ (touchRow_id now)).
      now destruct (filter (Spec.hasId id) (PostgresStore.patterns db)).
    + rewrite (update_where_other _ (touchRow_id now)) by exact Hne.
      rewrite (update_where_other _ (adjustRow_id now' success)) by exact Hne.
      rewrite (update_where_other _ (adjustRow_id now' success)) by exact Hne.
      rewrite (update_where_other _ (touchRow_id now)) by exact Hne.
      reflexivity.
Qed.

(** ** Strings *)

Section TextFacts.

Open Scope string_scope.

Lemma id_char_fixed (c : ascii) :
  PatternExtractor.id_char c = true ->
  JS.lower_char c = c /\ JS.is_space c = false.
Proof.
  unfold PatternExtractor.id_char, JS.lower_char, JS.is_space.
  set (n := nat_of_ascii c). cbv zeta.
  repeat match goal with
         | |- context [(?a <=? ?b)%nat] => destruct (Nat.leb_spec a b)
         | |- context [(?a =? ?b)%nat] => destruct (Nat.eqb_spec a b)
         end; cbn [andb orb]; intros Hid; try discriminate; try lia;
    split; reflexivity.
Qed.

Lemma strip_all (s : string) :
  Text.all_chars PatternExtractor.id_char (PatternExtractor.strip s) = true.
Proof.
  induction s as [|c s IH]; [reflexivity|]. cbn [PatternExtractor.strip].
  destruct (PatternExtractor.id_char c) eqn:E; [|exact IH].
  cbn [Text.all_chars]. now rewrite E, IH.
Qed.

Lemma strip_length (s : string) :
  (String.length (PatternExtractor.strip s) <= String.length s)%nat.
Proof.
  induction s as [|c s IH]; [apply Nat.le_refl|]. cbn [PatternExtractor.strip].
  destruct (PatternExtractor.id_char c); cbn [String.length]; lia.
Qed.

Lemma hyphenate_length (s : string) (in_run : bool) :
  (String.length (PatternExtractor.hyphenate s in_run) <= String.length s)%nat.
Proof.
  revert in_run. induction s as [|c s IH]; intros in_run; [apply Nat.le_refl|].
  cbn [PatternExtractor.hyphenate].
  pose proof (IH true) as Ht. pose proof (IH false) as Hf.
  destruct (JS.is_space c); [destruct in_run|]; cbn [String.length]; lia.
Qed.

Lemma toLowerCase_length (s : string) :
  String.length (JS.toLowerCase s) = String.length s.
Proof.
  induction s as [|c s IH]; [reflexivity|]. cbn [JS.toLowerCase String.length].
  now rewrite IH.
Qed.

Lemma id_chars_fixed (s : string) :
  Text.all_chars PatternExtractor.id_char s = true ->
  JS.toLowerCase s = s /\
  (forall in_run, PatternExtractor.hyphenate s in_run = s) /\
  PatternExtractor.strip s = s.
Proof.
  induction s as [|c s IH]; [repeat split|].
  cbn [Text.all_chars]. intros [Hc Hs]%andb_true_iff.
  destruct (IH Hs) as (H1 & H2 & H3).
  destruct (id_char_fixed c Hc) as [Hl Hsp].
  cbn [JS.toLowerCase PatternExtractor.hyphenate PatternExtractor.strip].
  rewrite Hl, Hsp, Hc, H1, H3. repeat split. intros in_run. now rewrite H2.
Qed.

Lemma lower_char_idempotent (c : ascii) :
  JS.lower_char (JS.lower_char c) = JS.lower_char c.
Proof.
  unfold JS.lower_char.
  destruct ((65 <=? nat_of_ascii c) && (nat_of_ascii c <=? 90))%nat eqn:E;
    [|now rewrite E].
  apply andb_true_iff in E as [H1 H2]. apply Nat.leb_le in H1, H2.
  rewrite nat_ascii_embedding by lia.
  assert (E' : ((65 <=? nat_of_ascii c + 32) && (nat_of_ascii c + 32 <=? 90))%nat = false).
  { apply andb_false_iff. right. apply Nat.leb_gt. lia. }
  now rewrite E'.
Qed.

Lemma toLowerCase_idempotent (s : string) :
  JS.toLowerCase (JS.toLowerCase s) = JS.toLowerCase s.
Proof.
  induction s as [|c s IH]; [reflexivity|]. cbn [JS.toLowerCase].
  now rewrite lower_char_idempotent, IH.
Qed.

Lemma append_empty_r (s : string) : s ++ "" = s.
Proof. induction s as [|c s IH]; [reflexivity | cbn; now rewrite IH]. Qed.







End TextFacts.


(** X9. [generatePatternId] returns only the characters a-z, 0-9 and
    the hyphen, never more characters than the name has, and an id that
    is given back as a name is returned as it is. *)
Theorem generatePatternId_shape (name : string) :
  Text.all_chars PatternExtractor.id_char (PatternExtractor.generatePatternId name)
  = true /\
  (String.length (PatternExtractor.generatePatternId name) <= String.length name)%nat /\
  PatternExtractor.generatePatternId (PatternExtractor.generatePatternId name)
  = PatternExtractor.generatePatternId name.
Proof.
  unfold PatternExtractor.generatePatternId.
  pose proof (strip_all (PatternExtractor.hyphenate (JS.toLowerCase name) false)) as Hall.
  split; [exact Hall|]. split.
  - eapply Nat.le_trans; [apply strip_length|].
    eapply Nat.le_trans; [apply hyphenate_length|].
    now rewrite toLowerCase_length.
  - destruct (id_chars_fixed _ Hall) as (H1 & H2 & H3).
    now rewrite H1, H2, H3.
Qed.

(** ** More on the search *)

Section CaseFacts.

Open Scope string_scope.

Variables query query' : string.
Hypothesis same_lower : JS.toLowerCase query = JS.toLowerCase query'.

Lemma visit_case (p : Pattern.t) : Search.visit query p = Search.visit query' p.
Proof.
  unfold Search.visit, Search.rawScore, Search.matchedContexts.
  cbv zeta. now rewrite same_lower.
Qed.

Lemma collect_case (ps : list Pattern.t) :
  Search.collect query ps = Search.collect query' ps.
Proof.
  induction ps as [|p ps IH]; [reflexivity|]. cbn [Search.collect].
  now rewrite visit_case, IH.
Qed.

Lemma score_case (e : Episode.t) : FileStore.score query e = FileStore.score query' e.
Proof. unfold FileStore.score. cbv zeta. now rewrite same_lower. Qed.

Lemma findSimilar_file_case (st : FileStore.t) (limit : Z) :
  FileStore.findSimilarEpisodes st query limit
  = FileStore.findSimilarEpisodes st query' limit.
Proof.
  unfold FileStore.findSimilarEpisodes.
  rewrite (map_ext _ (fun episode => (episode, FileStore.score query' episode)));
    [reflexivity|].
  intros e. now rewrite score_case.
Qed.

Lemma findSimilar_rows_case (db : PostgresStore.t) (limit : Z) :
  PostgresStore.findSimilarEpisodes db query limit
  = PostgresStore.findSimilarEpisodes db query' limit.
Proof. unfold PostgresStore.findSimilarEpisodes. now rewrite same_lower. Qed.

End CaseFacts.

(** X10. The searches do not see the letter case of the query: two
    queries with the same lower-cased text, such as a query and its
    lower-cased form, give the same result of [searchPatterns] and of
    [findSimilarEpisodes] in both stores. *)
Theorem searches_ignore_case (query query' : string) :
  JS.toLowerCase query = JS.toLowerCase query' ->
  (forall st : FileStore.t,
     FileStore.searchPatterns st query = FileStore.searchPatterns st query' /\
     forall limit,
       FileStore.findSimilarEpisodes st query limit
       = FileStore.findSimilarEpisodes st query' limit) /\
  (forall db : PostgresStore.t,
     PostgresStore.searchPatterns db query = PostgresStore.searchPatterns db query' /\
     forall limit,
       PostgresStore.findSimilarEpisodes db query limit
       = PostgresStore.findSimilarEpisodes db query' limit) /\
  JS.toLowerCase (JS.toLowerCase query) = JS.toLowerCase query.
Proof.
  intros H. split; [|split].
  - intros st. split.
    + unfold FileStore.searchPatterns, Search.searchPatterns.
      now rewrite (collect_case query query' H).
    + intros limit. now apply findSimilar_file_case.
  - intros db. split.
    + unfold PostgresStore.searchPatterns, Search.searchPatterns.
      now rewrite (collect_case query query' H).
    + intros limit. now apply findSimilar_rows_case.
  - apply toLowerCase_idempotent.
Qed.

Section BoundFacts.

Lemma search_bounds (stored : list Pattern.t) (query : string) :
  (forall r, In r (Search.searchPatterns stored query) ->
     In (pattern r) stored /\ 0 < relevance r /\ relevance r <= 1) /\
  (List.length (Search.searchPatterns stored query) <= List.length stored)%nat.
Proof.
  destruct (search_meets_spec query stored) as (Hentries & Hperm & _ & _).
  split.
  - intros r Hr. destruct (Hentries r Hr) as [Hrel _].
    assert (Hin : In (pattern r) (map pattern (Search.searchPatterns stored query)))
      by now apply in_map.
    apply (Permutation_in _ Hperm), filter_In in Hin as [Hin Hinc].
    split; [exact Hin|]. unfold Spec.included in Hinc.
    apply negb_true_iff in Hinc. rewrite Hrel. split.
    + apply Qnot_le_lt. intros Hle. apply Qle_bool_iff in Hle. congruence.
    + unfold Spec.expected_relevance.
      pose proof (Q.le_min_l 1.0 (Pattern.confidence (pattern r)
                                  * Spec.raw query (pattern r))) as Hm.
      lra.
  - rewrite <- (length_map pattern), (Permutation_length Hperm).
    apply filter_length_le.
Qed.

End BoundFacts.

(** X11. In both stores every result of [searchPatterns] carries a
    stored pattern and a relevance above 0 and at most 1, and there are
    no more results than stored patterns. *)
Theorem searchPatterns_bounds (query : string) :
  (forall st : FileStore.t,
     (forall r, In r (FileStore.searchPatterns st query) ->
        In (pattern r) (FileStore.getAllPatterns st) /\
        0 < relevance r /\ relevance r <= 1) /\
     (List.length (FileStore.searchPatterns st query)
      <= List.length (FileStore.getAllPatterns st))%nat) /\
  (forall db : PostgresStore.t,
     (forall r, In r (PostgresStore.searchPatterns db query) ->
        In (pattern r) (PostgresStore.getAllPatterns db) /\
        0 < relevance r /\ relevance r <= 1) /\
     (List.length (PostgresStore.searchPatterns db query)
      <= List.length (PostgresStore.getAllPatterns db))%nat).
Proof.
  split; intros s; apply search_bounds.
Qed.

Section RelatedFacts.

Lemma nonempty_filter (A : Type) (f : A -> bool) (l : list A) :
  (0 <? List.length (filter f l))%nat = true <-> exists x, In x l /\ f x = true.
Proof.
  rewrite Nat.ltb_lt. split.
  - destruct (filter f l) as [|x l'] eqn:E; [cbn; lia|]. intros _.
    exists x. apply filter_In. rewrite E. now left.
  - intros [x Hx]. apply filter_In in Hx.
    destruct (filter f l); [contradiction | cbn; lia].
Qed.

Lemma overlap_sym (p other : Pattern.t) : Counting.overlap p other -> Counting.overlap other p.
Proof.
  intros (c & oc & Hc & Hoc & H). exists oc, c. tauto.
Qed.

Lemma related_spec (p : Pattern.t) (allPatterns : list Pattern.t) (id : string) :
  In id (PatternExtractor.findRelatedPatterns p allPatterns) <->
  exists other,
    In other allPatterns /\ Pattern.id other = id /\
    Pattern.id other <> Pattern.id p /\ Counting.overlap p other.
Proof.
  unfold PatternExtractor.findRelatedPatterns. rewrite in_map_iff.
  split.
  - intros (other & Hid & Hin). apply filter_In in Hin as [Hin Hcond].
    apply andb_true_iff in Hcond as [Hne Hov].
    apply negb_true_iff, String.eqb_neq in Hne.
    apply nonempty_filter in Hov as (c & Hc & Hex).
    apply existsb_exists in Hex as (oc & Hoc & Hsub).
    exists other. split; [exact Hin|]. split; [exact Hid|]. split; [exact Hne|].
    exists c, oc. split; [exact Hc|]. split; [exact Hoc|].
    apply orb_true_iff in Hsub as [H | H]; apply includes_spec in H;
      [left | right]; exact H.
  - intros (other & Hin & Hid & Hne & c & oc & Hc & Hoc & Hsub).
    exists other. split; [exact Hid|]. apply filter_In. split; [exact Hin|].
    apply andb_true_iff. split.
    + now apply negb_true_iff, String.eqb_neq.
    + apply nonempty_filter. exists c. split; [exact Hc|].
      apply existsb_exists. exists oc. split; [exact Hoc|].
      apply orb_true_iff.
      destruct Hsub as [H | H]; apply includes_spec in H; [left | right]; exact H.
Qed.

End RelatedFacts.

(** X12. [findRelatedPatterns] returns exactly the ids of the other
    patterns that have a context tag containing, or contained in, a
    context tag of the given pattern; it never returns the id of the
    pattern itself, and two patterns of different ids are related in
    both directions or in none. *)
Theorem findRelatedPatterns_overlap (p : Pattern.t) (allPatterns : list Pattern.t) :
  (forall id,
     In id (PatternExtractor.findRelatedPatterns p allPatterns) <->
     exists other,
       In other allPatterns /\ Pattern.id other = id /\
       Pattern.id other <> Pattern.id p /\ Counting.overlap p other) /\
  ~ In (Pattern.id p) (PatternExtractor.findRelatedPatterns p allPatterns) /\
  (forall q,
     In (Pattern.id q) (PatternExtractor.findRelatedPatterns p [q]) <->
     In (Pattern.id p) (PatternExtractor.findRelatedPatterns q [p])).
Proof.
  split; [intros id; apply related_spec|]. split.
  - intros H. apply related_spec in H as (other & _ & Hid & Hne & _). congruence.
  - intros q. rewrite !related_spec. split.
    + intros (other & [<- | []] & _ & Hne & Hov).
      exists p. split; [now left|]. split; [reflexivity|].
      split; [congruence | now apply overlap_sym].
    + intros (other & [<- | []] & _ & Hne & Hov).
      exists q. split; [now left|]. split; [reflexivity|].
      split; [congruence | now apply overlap_sym].
Qed.

(** ** Counting context tokens *)

Section CountingFacts.

Open Scope string_scope.

Lemma Map_set_keys (V : Type) (m : list (string * V)) (k : string) (v : V) :
  map fst (JS.Map_set m k v)
  = if existsb (String.eqb k) (map fst m) then map fst m
    else (map fst m ++ [k])%list.
Proof.
  induction m as [|[k0 v0] m IH]; [reflexivity|].
  cbn [JS.Map_set map fst existsb].
  destruct (String.eqb k k0) eqn:E; cbn [orb map fst].
  - apply String.eqb_eq in E. now subst.
  - rewrite IH. now destruct (existsb (String.eqb k) (map fst m)).
Qed.

Lemma Map_set_NoDup (V : Type) (m : list (string * V)) (k : string) (v : V) :
  NoDup (map fst m) -> NoDup (map fst (JS.Map_set m k v)).
Proof.
  intros Hnd. rewrite Map_set_keys.
  destruct (existsb (String.eqb k) (map fst m)) eqn:E; [exact Hnd|].
  apply NoDup_app; [exact Hnd | repeat constructor; simpl; tauto|].
  intros x Hx [<- | []].
  assert (existsb (String.eqb k) (map fst m) = true).
  { apply existsb_exists. exists k. split; [exact Hx | apply String.eqb_refl]. }
  congruence.
Qed.

Lemma Map_get_In (V : Type) (m : list (string * V)) (k : string) (v : V) :
  NoDup (map fst m) -> (In (k, v) m <-> JS.Map_get m k = Some v).
Proof.
  induction m as [|[k0 v0] m IH]; intros Hnd.
  - cbn. split; [contradiction | discriminate].
  - cbn [map fst] in Hnd. inversion Hnd as [|x l Hnotin Hnd']; subst.
    cbn [JS.Map_get In]. destruct (String.eqb k k0) eqn:E.
    + apply String.eqb_eq in E. subst k0. split.
      * intros [[= ->] | Hin]; [reflexivity|].
        exfalso. apply Hnotin. apply in_map_iff. now exists (k, v).
      * intros [= ->]. now left.
    + apply String.eqb_neq in E. rewrite <- (IH Hnd'). split.
      * intros [[= -> ->] | Hin]; [congruence | exact Hin].
      * intros Hin. now right.
Qed.

Lemma bump_get0 (m : list (string * nat)) (k k' : string) :
  Counting.get0 (PatternExtractor.bump m k) k'
  = (Counting.get0 m k' + if String.eqb k k' then 1 else 0)%nat.
Proof.
  unfold Counting.get0, PatternExtractor.bump.
  destruct (String.eqb k k') eqn:E.
  - apply String.eqb_eq in E. subst k'. now rewrite Map_get_set_same.
  - apply String.eqb_neq in E. rewrite Map_get_set_other by congruence. lia.
Qed.

Lemma bump_positive (m : list (string * nat)) (k : string) :
  Counting.positive m -> Counting.positive (PatternExtractor.bump m k).
Proof.
  intros Hpos k' n. unfold PatternExtractor.bump.
  destruct (string_dec k' k) as [-> | Hne].
  - rewrite Map_get_set_same. intros [= <-]. lia.
  - rewrite Map_get_set_other by exact Hne. apply Hpos.
Qed.










End CountingFacts.



Section ShapeFacts.

Lemma successRate_range (episodes : list Episode.t) :
  (0 < List.length episodes)%nat ->
  0 <= PatternExtractor.successRate episodes.
Proof.
  intros Hlen. unfold PatternExtractor.successRate.
  apply Qle_shift_div_l.
  - change 0 with (inject_Z 0). rewrite <- Zlt_Qlt. lia.
  - rewrite Qmult_0_l. change 0 with (inject_Z 0). rewrite <- Zle_Qle. lia.
Qed.

End ShapeFacts.

(** X15. For at least two episodes the extracted pattern has the id
    generated from its name, the given name and problem statement, no
    use, no relation and the creation time of the call; it has one
    example for each of the first three episodes, in their order,
    between one and five context tags, and a confidence from 0 to
    0.9. *)
Theorem extractPattern_shape (now : Z) (episodes : list Episode.t)
  (name problemStatement : string) :
  (2 <= List.length episodes)%nat ->
  exists p,
    PatternExtractor.extractPattern now episodes name problemStatement = Some p /\
    Pattern.id p = PatternExtractor.generatePatternId name /\
    Pattern.name p = name /\
    Pattern.problem p = problemStatement /\
    Pattern.usageCount p = 0%Z /\
    Pattern.relations p = [] /\
    Pattern.createdAt p = now /\
    Pattern.lastUsedAt p = None /\
    map input (Pattern.examples p) = map Episode.context (firstn 3 episodes) /\
    List.length (Pattern.examples p) = Nat.min 3 (List.length episodes) /\
    (1 <= List.length (Pattern.context p) <= 5)%nat /\
    0 <= Pattern.confidence p /\ Pattern.confidence p <= 0.9.
Proof.
  intros Hlen.
  destruct (extractPattern_some now episodes name problemStatement Hlen)
    as (p & Hp & Hc & Hctx).
  exists p. split; [exact Hp|].
  unfold PatternExtractor.extractPattern in Hp.
  destruct (List.length episodes <? 2)%nat; [discriminate|].
  injection Hp as <-.
  cbn [Pattern.id Pattern.name Pattern.problem Pattern.usageCount
       Pattern.relations Pattern.createdAt Pattern.lastUsedAt Pattern.examples
       Pattern.context Pattern.confidence].
  repeat (split; [reflexivity|]).
  change (JS.slice0 3 episodes) with (firstn 3 episodes).
  split; [now rewrite map_map|]. split.
  { now rewrite length_map, length_firstn. }
  split.
  - destruct (0 <? List.length (PatternExtractor.commonContext episodes))%nat eqn:E.
    + apply Nat.ltb_lt in E. split; [lia|].
      change (PatternExtractor.commonContext episodes)
        with (firstn 5 (Counting.qualifying episodes)).
      rewrite length_firstn. lia.
    + cbn. lia.
  - pose proof (successRate_range episodes ltac:(lia)) as Hrate.
    destruct (Math_min_cases 0.9 (PatternExtractor.successRate episodes))
      as [[H ->] | [H ->]]; split; lra.
Qed.

(** ** Action sequences and the generated solution *)

Section ActionFacts.

Lemma bump_fold (l : list string) (m : list (string * nat)) :
  NoDup (map fst m) -> Counting.positive m ->
  NoDup (map fst (fold_left PatternExtractor.bump l m)) /\
  Counting.positive (fold_left PatternExtractor.bump l m) /\
  forall s, Counting.get0 (fold_left PatternExtractor.bump l m) s
            = (Counting.get0 m s + count_occ string_dec l s)%nat.
Proof.
  revert m. induction l as [|x l IH]; intros m Hnd Hpos.
  - cbn. split; [exact Hnd|]. split; [exact Hpos|]. intros s. lia.
  - cbn [fold_left].
    destruct (IH (PatternExtractor.bump m x)) as (H1 & H2 & H3).
    + now apply Map_set_NoDup.
    + now apply bump_positive.
    + split; [exact H1|]. split; [exact H2|]. intros s.
      rewrite H3, bump_get0. cbn [count_occ].
      destruct (string_dec x s) as [-> | Hne].
      * rewrite String.eqb_refl. lia.
      * apply String.eqb_neq in Hne. rewrite Hne. lia.
Qed.

Lemma actionSequences_fold (episodes : list Episode.t) (m : list (string * nat)) :
  NoDup (map fst m) -> Counting.positive m ->
  let m' := fold_left
              (fun m ep =>
                 fold_left PatternExtractor.bump
                           (PatternExtractor.sequences (Episode.actions ep)) m)
              episodes m in
  NoDup (map fst m') /\ Counting.positive m' /\
  forall s, Counting.get0 m' s = (Counting.get0 m s + Actions.times s episodes)%nat.
Proof.
  revert m. induction episodes as [|ep episodes IH]; intros m Hnd Hpos.
  - cbn. split; [exact Hnd|]. split; [exact Hpos|]. intros s. lia.
  - cbn [fold_left].
    destruct (bump_fold (PatternExtractor.sequences (Episode.actions ep)) m Hnd Hpos)
      as (H1 & H2 & H3).
    destruct (IH _ H1 H2) as (G1 & G2 & G3).
    split; [exact G1|]. split; [exact G2|]. intros s.
    rewrite G3, H3. unfold Actions.times, Actions.pairs. cbn [flat_map].
    rewrite count_occ_app. lia.
Qed.

Lemma actionSequences_entries (episodes : list Episode.t) :
  NoDup (map fst (Actions.actionSequences episodes)) /\
  forall s n,
    In (s, n) (Actions.actionSequences episodes) <->
    n = Actions.times s episodes /\ (0 < n)%nat.
Proof.
  unfold Actions.actionSequences.
  destruct (actionSequences_fold episodes [] (NoDup_nil _)) as (Hnd & Hpos & Hget).
  { intros k n. discriminate. }
  split; [exact Hnd|]. intros s n. rewrite (Map_get_In _ _ _ _ Hnd).
  specialize (Hget s). unfold Counting.get0 in Hget. cbn [JS.Map_get] in Hget.
  split.
  - intros H. rewrite H in Hget. split; [lia|]. now apply (Hpos s).
  - intros [-> Hn].
    destruct (JS.Map_get _ s) as [n|]; [now rewrite Hget | lia].
Qed.

Lemma at_least_three_tenths (count total : nat) (s : string) :
  PatternExtractor.at_least (inject_Z (Z.of_nat total) * 0.3) (s, count) = true <->
  (3 * total <= 10 * count)%nat.
Proof.
  unfold PatternExtractor.at_least. rewrite Qle_bool_iff. cbn [snd].
  unfold Qle, Qmult, inject_Z. cbn [Qnum Qden]. lia.
Qed.

Lemma frequent_spec (episodes : list Episode.t) :
  NoDup (Actions.frequent episodes) /\
  forall s,
    In s (Actions.frequent episodes) <->
    (0 < Actions.times s episodes)%nat /\
    (3 * List.length episodes <= 10 * Actions.times s episodes)%nat.
Proof.
  destruct (actionSequences_entries episodes) as [Hnd Hin].
  unfold Actions.frequent, JS.Map_entries. split.
  - now apply NoDup_map_filter.
  - intros s. rewrite in_map_iff. split.
    + intros ([s' n] & Hs & Hf). cbn [fst] in Hs. subst s'.
      apply filter_In in Hf as [Hf Hat].
      apply Hin in Hf as [-> Hpos]. apply at_least_three_tenths in Hat. now split.
    + intros [Hpos Hmany]. exists (s, Actions.times s episodes).
      split; [reflexivity|]. apply filter_In. split.
      * now apply Hin.
      * now apply at_least_three_tenths.
Qed.

Lemma sequences_adjacent (actions : list string) (s : string) :
  In s (PatternExtractor.sequences actions) <->
  exists a b, Actions.adjacent a b actions /\ s = (a ++ PatternExtractor.arrow ++ b)%string.
Proof.
  induction actions as [|a [|b r] IH].
  - cbn. split; [contradiction|]. intros (a & b & ([|x before] & rest & H) & _);
      discriminate.
  - cbn. split; [contradiction|].
    intros (a' & b' & ([|x [|y before]] & rest & H) & _); discriminate.
  - cbn [PatternExtractor.sequences In]. rewrite IH. split.
    + intros [<- | (a' & b' & (before & rest & H) & ->)].
      * exists a, b. split; [|reflexivity]. exists [], r. reflexivity.
      * exists a', b'. split; [|reflexivity]. exists (a :: before), rest.
        cbn. now rewrite H.
    + intros (a' & b' & (before & rest & H) & ->).
      destruct before as [|x before]; cbn in H.
      * injection H as -> -> _. now left.
      * injection H as _ H. right. exists a', b'. split; [|reflexivity].
        now exists before, rest.
Qed.

Lemma times_adjacent (episodes : list Episode.t) (s : string) :
  (0 < Actions.times s episodes)%nat <->
  exists ep a b,
    In ep episodes /\ Actions.adjacent a b (Episode.actions ep) /\
    s = (a ++ PatternExtractor.arrow ++ b)%string.
Proof.
  assert (Hmet : In s (Actions.pairs episodes) <-> (0 < Actions.times s episodes)%nat)
    by exact (count_occ_In string_dec (Actions.pairs episodes) s).
  rewrite <- Hmet. unfold Actions.pairs. rewrite in_flat_map. split.
  - intros (ep & Hep & Hs). apply sequences_adjacent in Hs as (a & b & Hadj & ->).
    now exists ep, a, b.
  - intros (ep & a & b & Hep & Hadj & ->). exists ep. split; [exact Hep|].
    apply sequences_adjacent. now exists a, b.
Qed.

Lemma two_actions_adjacent (actions : list string) :
  (2 <= List.length actions)%nat -> exists a b, Actions.adjacent a b actions.
Proof.
  destruct actions as [|a [|b r]]; cbn; try lia. intros _.
  exists a, b, [], r. reflexivity.
Qed.

End ActionFacts.

(** X25. [findCommonActionPatterns] returns the first three of the
    two-action sequences met in at least three tenths of the number of
    episodes, each once; a sequence is counted once for every place
    where its two actions follow each other in an episode. The solution
    names the first of these sequences; without one it lists the
    actions of the first successful episode, and without a success it
    is the fixed advice. With at most three episodes every sequence
    that is met is frequent enough, so one episode with two actions
    decides for the first kind of solution. *)
Theorem action_patterns (episodes : list Episode.t) :
  PatternExtractor.findCommonActionPatterns episodes
  = firstn 3 (Actions.frequent episodes) /\
  NoDup (Actions.frequent episodes) /\
  (forall s,
     In s (Actions.frequent episodes) <->
     (0 < Actions.times s episodes)%nat /\
     (3 * List.length episodes <= 10 * Actions.times s episodes)%nat) /\
  (forall s,
     (0 < Actions.times s episodes)%nat <->
     exists ep a b,
       In ep episodes /\ Actions.adjacent a b (Episode.actions ep) /\
       s = (a ++ PatternExtractor.arrow ++ b)%string) /\
  PatternExtractor.generateSolution
    (PatternExtractor.findCommonActionPatterns episodes) episodes
  = match Actions.frequent episodes, filter PatternExtractor.successful episodes with
    | first :: _, _ => ("Apply the following action sequence: " ++ first)%string
    | [], firstSuccess :: _ =>
        ("Follow approach: "
         ++ JS.join ", then " (Episode.actions firstSuccess))%string
    | [], [] =>
        "Analyze the context and apply appropriate actions based on examples"%string
    end /\
  ((List.length episodes <= 3)%nat ->
   (exists ep, In ep episodes /\ (2 <= List.length (Episode.actions ep))%nat) ->
   exists first,
     In first (Actions.frequent episodes) /\
     PatternExtractor.generateSolution
       (PatternExtractor.findCommonActionPatterns episodes) episodes
     = ("Apply the following action sequence: " ++ first)%string).
Proof.
  destruct (frequent_spec episodes) as [Hnd Hfreq].
  assert (Hfirst : PatternExtractor.findCommonActionPatterns episodes
                   = firstn 3 (Actions.frequent episodes)) by reflexivity.
  assert (Hsol : PatternExtractor.generateSolution
                   (PatternExtractor.findCommonActionPatterns episodes) episodes
                 = match Actions.frequent episodes,
                         filter PatternExtractor.successful episodes with
                   | first :: _, _ =>
                       ("Apply the following action sequence: " ++ first)%string
                   | [], firstSuccess :: _ =>
                       ("Follow approach: "
                        ++ JS.join ", then " (Episode.actions firstSuccess))%string
                   | [], [] =>
                       "Analyze the context and apply appropriate actions based on examples"%string
                   end).
  { rewrite Hfirst. unfold PatternExtractor.generateSolution.
    destruct (Actions.frequent episodes) as [|first rest]; reflexivity. }
  split; [exact Hfirst|]. split; [exact Hnd|]. split; [exact Hfreq|].
  split; [intros s; apply times_adjacent|]. split; [exact Hsol|].
  intros Hlen (ep & Hep & Htwo).
  destruct (two_actions_adjacent (Episode.actions ep) Htwo) as (a & b & Hadj).
  assert (Hmet : (0 < Actions.times (a ++ PatternExtractor.arrow ++ b)%string episodes)%nat).
  { apply times_adjacent. now exists ep, a, b. }
  assert (Hin : In (a ++ PatternExtractor.arrow ++ b)%string (Actions.frequent episodes)).
  { apply Hfreq. split; [exact Hmet | lia]. }
  rewrite Hsol. destruct (Actions.frequent episodes) as [|first rest]; [contradiction|].
  exists first. split; [now left | reflexivity].
Qed.

(** ** Ranking episodes *)

Section RankingFacts.

Open Scope string_scope.

Lemma count_le (A : Type) (l l' : list A) :
  (List.length l <= List.length l')%nat -> Spec.count l <= Spec.count l'.
Proof.
  intros H. unfold Spec.count. rewrite <- Zle_Qle. lia.
Qed.

Lemma sharedTokens_le (query context : string) :
  (List.length (Spec.sharedTokens query context)
   <= List.length (Ranking.queryTokens query))%nat.
Proof.
  unfold Spec.sharedTokens, Ranking.queryTokens.
  apply NoDup_incl_length; [apply NoDup_nodup|].
  intros w Hw. apply nodup_In in Hw. apply filter_In in Hw as [Hw _].
  now apply nodup_In.
Qed.

Lemma sharedTokens_self (query context : string) :
  JS.toLowerCase context = JS.toLowerCase query ->
  Spec.sharedTokens query context = Ranking.queryTokens query.
Proof.
  intros H. unfold Spec.sharedTokens, Ranking.queryTokens. rewrite H.
  f_equal. apply filter_all. intros w Hw.
  apply existsb_exists. exists w. split; [exact Hw | apply String.eqb_refl].
Qed.

Lemma includes_self (s : string) : JS.includes s s = true.
Proof.
  apply includes_spec. exists "", "". cbn. now rewrite append_empty_r.
Qed.

Lemma similarity_best (query : string) (ep : Episode.t) :
  Spec.similarity query ep <= Ranking.best query.
Proof.
  unfold Spec.similarity, Ranking.best.
  pose proof (count_le _ _ _ (sharedTokens_le query (Episode.context ep))) as H.
  destruct (_ || _); lra.
Qed.

Lemma similarity_exact (query : string) (ep : Episode.t) :
  JS.toLowerCase (Episode.context ep) = JS.toLowerCase query ->
  Spec.similarity query ep == Ranking.best query.
Proof.
  intros H. unfold Spec.similarity, Ranking.best.
  rewrite (sharedTokens_self _ _ H), H, includes_self. cbn [orb]. reflexivity.
Qed.

Lemma best_positive (query : string) : 0 < Ranking.best query.
Proof.
  unfold Ranking.best, Spec.count.
  assert (0 <= inject_Z (Z.of_nat (List.length (Ranking.queryTokens query)))).
  { change 0 with (inject_Z 0). rewrite <- Zle_Qle. lia. }
  lra.
Qed.

Lemma slice0_map (A B : Type) (f : A -> B) (n : Z) (l : list A) :
  JS.slice0 n (map f l) = map f (JS.slice0 n l).
Proof.
  unfold JS.slice0. rewrite length_map. destruct (n <? 0)%Z; apply firstn_map.
Qed.

(** The file-backed search on the ranked episodes, for any limit. *)
Lemma findSimilar_ranked (st : FileStore.t) (query : string) (limit : Z) :
  FileStore.findSimilarEpisodes st query limit
  = filter (Ranking.nonzero query) (JS.slice0 limit (Ranking.ranked st query)).
Proof.
  unfold FileStore.findSimilarEpisodes, Ranking.ranked.
  rewrite (sort_desc_map snd (fun episode => (episode, FileStore.score query episode))).
  cbn [snd]. rewrite slice0_map, filter_map_swap, map_map. cbn [fst snd].
  rewrite map_id.
  rewrite (sort_desc_ext _ (Spec.similarity query) _ (score_spec query)).
  apply filter_ext, positive_score.
Qed.

Lemma firstn_In (A : Type) (n : nat) (l : list A) (x : A) :
  In x (firstn n l) -> In x l.
Proof.
  intros H. rewrite <- (firstn_skipn n l). apply in_or_app. now left.
Qed.

Lemma StronglySorted_firstn (A : Type) (R : A -> A -> Prop) (n : nat) (l : list A) :
  StronglySorted R l -> StronglySorted R (firstn n l).
Proof.
  intros Hs. revert n. induction Hs as [|x l Hs IH Hall]; intros n.
  - rewrite firstn_nil. constructor.
  - destruct n as [|n]; [constructor|]. cbn [firstn]. constructor; [apply IH|].
    apply Forall_forall. intros y Hy.
    apply (proj1 (Forall_forall _ _) Hall). eapply firstn_In; eassumption.
Qed.

Lemma StronglySorted_filter (A : Type) (R : A -> A -> Prop) (f : A -> bool)
  (l : list A) :
  StronglySorted R l -> StronglySorted R (filter f l).
Proof.
  induction 1 as [|x l Hs IH Hall]; [constructor|]. cbn [filter].
  destruct (f x); [|exact IH]. constructor; [exact IH|].
  apply Forall_forall. intros y Hy. apply filter_In in Hy as [Hy _].
  now apply (proj1 (Forall_forall _ _) Hall).
Qed.

Lemma slice0_sorted (A : Type) (R : A -> A -> Prop) (n : Z) (l : list A) :
  StronglySorted R l -> StronglySorted R (JS.slice0 n l).
Proof.
  intros H. unfold JS.slice0. destruct (n <? 0)%Z; now apply StronglySorted_firstn.
Qed.

Lemma slice0_In (A : Type) (n : Z) (l : list A) (x : A) :
  In x (JS.slice0 n l) -> In x l.
Proof.
  unfold JS.slice0. destruct (n <? 0)%Z; apply firstn_In.
Qed.

Lemma nonzero_positive (query : string) (ep : Episode.t) :
  Ranking.nonzero query ep = true <-> 0 < Spec.similarity query ep.
Proof.
  unfold Ranking.nonzero. rewrite negb_true_iff.
  pose proof (similarity_nonneg query ep) as Hge. split.
  - intros H. apply Qnot_le_lt. intros Hle.
    assert (Heq : Spec.similarity query ep == 0) by lra.
    apply Qeq_bool_iff in Heq. congruence.
  - intros Hpos. destruct (Qeq_bool (Spec.similarity query ep) 0) eqn:E;
      [|reflexivity].
    apply Qeq_bool_iff in E. lra.
Qed.

End RankingFacts.

Section RankedFacts.

Lemma StronglySorted_impl (A : Type) (R R' : A -> A -> Prop) (l : list A) :
  (forall a b, R a b -> R' a b) -> StronglySorted R l -> StronglySorted R' l.
Proof.
  intros H. induction 1 as [|x l Hs IH Hall]; constructor; [exact IH|].
  eapply Forall_impl; [|exact Hall]. intros b. apply H.
Qed.

Lemma ranked_sorted (st : FileStore.t) (query : string) :
  StronglySorted (Spec.desc (Spec.similarity query)) (Ranking.ranked st query) /\
  forall ep, In ep (Ranking.ranked st query)
             <-> In ep (JS.Map_values (FileStore.episodes st)).
Proof.
  split; [apply sort_desc_sorted | intros ep; apply sort_desc_In].
Qed.

Lemma ranked_head (st : FileStore.t) (query : string) (e : Episode.t) :
  In e (JS.Map_values (FileStore.episodes st)) ->
  exists h t,
    Ranking.ranked st query = h :: t /\
    Spec.similarity query e <= Spec.similarity query h.
Proof.
  intros He. destruct (ranked_sorted st query) as [Hs Hin].
  apply Hin in He. destruct (Ranking.ranked st query) as [|h t]; [contradiction|].
  exists h, t. split; [reflexivity|].
  destruct He as [<- | He]; [apply Qle_refl|].
  inversion Hs as [|x l _ Hall]; subst.
  now apply (proj1 (Forall_forall _ _) Hall).
Qed.

End RankedFacts.

(** X16. In the file-backed store every episode that
    [findSimilarEpisodes] returns is stored and has a score above 0, the
    episodes come by descending score, and for a limit that is not
    negative there are at most [limit] of them. *)
Theorem findSimilarEpisodes_result (st : FileStore.t) (query : string) (limit : Z) :
  (forall ep, In ep (FileStore.findSimilarEpisodes st query limit) ->
     In ep (JS.Map_values (FileStore.episodes st)) /\
     0 < FileStore.score query ep) /\
  StronglySorted (Spec.desc (FileStore.score query))
                 (FileStore.findSimilarEpisodes st query limit) /\
  ((0 <= limit)%Z ->
   (List.length (FileStore.findSimilarEpisodes st query limit)
    <= Z.to_nat limit)%nat).
Proof.
  rewrite findSimilar_ranked.
  destruct (ranked_sorted st query) as [Hs Hin].
  split; [|split].
  - intros ep Hep. apply filter_In in Hep as [Hep Hnz].
    apply slice0_In, Hin in Hep. split; [exact Hep|].
    apply nonzero_positive in Hnz. now rewrite (score_spec query ep).
  - apply (StronglySorted_impl _ (Spec.desc (Spec.similarity query))).
    + intros a b. unfold Spec.desc. now rewrite !(score_spec query).
    + now apply StronglySorted_filter, slice0_sorted.
  - intros Hlimit. eapply Nat.le_trans; [apply filter_length_le|].
    rewrite (@slice0_firstn _ limit _ Hlimit). apply firstn_le_length.
Qed.


(** X18. No episode scores more than 0.5 plus 0.1 for each distinct
    piece of the query, and an episode whose context is the query up to
    letter case reaches that score: with a positive limit the file-backed
    [findSimilarEpisodes] then returns, in first place, an episode of
    that same score. *)
Theorem exact_match_ranks_first (st : FileStore.t) (query : string)
  (e : Episode.t) (limit : Z) :
  In e (JS.Map_values (FileStore.episodes st)) ->
  JS.toLowerCase (Episode.context e) = JS.toLowerCase query ->
  (0 < limit)%Z ->
  (forall e', FileStore.score query e' <= Ranking.best query) /\
  FileStore.score query e == Ranking.best query /\
  exists h rest,
    FileStore.findSimilarEpisodes st query limit = h :: rest /\
    FileStore.score query h == FileStore.score query e.
Proof.
  intros He Hexact Hlimit.
  assert (Hbest : forall e', FileStore.score query e' <= Ranking.best query).
  { intros e'. rewrite (score_spec query e'). apply similarity_best. }
  split; [exact Hbest|].
  assert (Hscore : FileStore.score query e == Ranking.best query).
  { rewrite (score_spec query e). now apply similarity_exact. }
  split; [exact Hscore|].
  destruct (ranked_head st query e He) as (h & t & Hr & Hle).
  assert (Hh : Spec.similarity query h == Ranking.best query).
  { apply Qle_antisym; [apply similarity_best|].
    rewrite <- (similarity_exact query e Hexact). exact Hle. }
  exists h. rewrite findSimilar_ranked, Hr.
  rewrite (@slice0_firstn _ limit _ (Z.lt_le_incl _ _ Hlimit)).
  destruct (Z.to_nat limit) as [|n] eqn:En; [lia|].
  cbn [firstn filter].
  assert (Hnz : Ranking.nonzero query h = true).
  { apply nonzero_positive. rewrite Hh. apply best_positive. }
  rewrite Hnz. eexists. split; [reflexivity|].
  now rewrite (score_spec query h), Hh, Hscore.
Qed.

Section PlainFacts.

Open Scope string_scope.




End PlainFacts.


(** ** Invariants of the file-backed store *)

Section KeyedFacts.

Variable A : Type.
Variable id : A -> string.

Lemma Map_get_entry (m : list (string * A)) (k : string) (v : A) :
  JS.Map_get m k = Some v -> In (k, v) m.
Proof.
  induction m as [|[k0 v0] m IH]; [discriminate|]. cbn [JS.Map_get].
  destruct (String.eqb k k0) eqn:E.
  - apply String.eqb_eq in E. intros [= ->]. left. now subst.
  - intros H. right. now apply IH.
Qed.

Lemma Map_set_Forall (P : string * A -> Prop) (m : list (string * A))
  (k : string) (v : A) :
  Forall P m -> P (k, v) -> Forall P (JS.Map_set m k v).
Proof.
  intros Hm Hkv. induction Hm as [|[k0 v0] m H0 Hm IH]; cbn [JS.Map_set].
  - now repeat constructor.
  - destruct (String.eqb k k0) eqn:E.
    + apply String.eqb_eq in E. subst k0. now constructor.
    + now constructor.
Qed.

Lemma keyed_set (m : list (string * A)) (v : A) :
  Sessions.keyed id m -> Sessions.keyed id (JS.Map_set m (id v) v).
Proof.
  intros [Hk Hnd]. split.
  - now apply Map_set_Forall.
  - now apply Map_set_NoDup.
Qed.

Lemma keyed_get (m : list (string * A)) (k : string) (v : A) :
  Sessions.keyed id m -> JS.Map_get m k = Some v -> id v = k.
Proof.
  intros [Hk _] Hget. apply Map_get_entry in Hget.
  apply (proj1 (Forall_forall _ _) Hk) in Hget. cbn in Hget. congruence.
Qed.

Lemma keyed_values (m : list (string * A)) :
  Sessions.keyed id m ->
  NoDup (map id (JS.Map_values m)) /\
  forall v, In v (JS.Map_values m) <-> JS.Map_get m (id v) = Some v.
Proof.
  intros [Hk Hnd]. unfold JS.Map_values. split.
  - rewrite map_map.
    rewrite <- (map_ext_in fst (fun entry => id (snd entry))); [exact Hnd|].
    intros entry Hin. now apply (proj1 (Forall_forall _ _) Hk).
  - intros v. split.
    + intros Hin. apply in_map_iff in Hin as ([k v'] & Hv & Hin).
      cbn [snd] in Hv. subst v'.
      pose proof (proj1 (Forall_forall _ _) Hk _ Hin) as Hkey. cbn in Hkey.
      subst k. now apply (Map_get_In _ _ _ _ Hnd).
    + intros Hget. apply Map_get_entry in Hget.
      apply in_map_iff. now exists (id v, v).
Qed.

End KeyedFacts.

Section FileInvariant.

Lemma wf_savePattern (st : FileStore.t) (p : Pattern.t) :
  Sessions.wfFile st -> Sessions.wfFile (FileStore.savePattern st p).
Proof.
  intros [Hp He]. split; [now apply keyed_set | exact He].
Qed.

Lemma wf_update (st : FileStore.t) (k : string) (p p' : Pattern.t) :
  Sessions.wfFile st ->
  JS.Map_get (FileStore.patterns st) k = Some p ->
  Pattern.id p' = Pattern.id p ->
  Sessions.wfFile {| FileStore.patterns := JS.Map_set (FileStore.patterns st) k p';
                     FileStore.episodes := FileStore.episodes st |}.
Proof.
  intros [Hp He] Hget Hid. split; [|exact He]. cbn [FileStore.patterns].
  rewrite <- (keyed_get _ Pattern.id _ _ _ Hp Hget), <- Hid.
  now apply keyed_set.
Qed.

Lemma wf_initialize (now : Z) (st : FileStore.t) :
  Sessions.wfFile st -> Sessions.wfFile (FileStore.initialize now st).
Proof.
  intros Hwf. unfold FileStore.initialize.
  destruct (List.length (FileStore.patterns st) =? 0)%nat; [|exact Hwf].
  destruct Hwf as [Hp He]. split; [|exact He].
  unfold FileStore.initializeWithSamplePatterns. cbn [FileStore.patterns].
  cbn [Samples.samplePatterns fold_left].
  apply (keyed_set _ Pattern.id _ (Samples.concrete_before_abstract now)).
  now apply (keyed_set _ Pattern.id _ (Samples.progressive_disclosure now)).
Qed.

Lemma wf_runFile (st : FileStore.t) (step : Z * Sessions.call) :
  Sessions.wfFile st -> Sessions.wfFile (Sessions.runFile st step).
Proof.
  intros Hwf. destruct step as [now [|p|e|id|id outcome|ids name problem]];
    unfold Sessions.runFile; cbn [fst snd].
  - now apply wf_initialize.
  - now apply wf_savePattern.
  - destruct Hwf as [Hp He]. split; [exact Hp | now apply keyed_set].
  - unfold FileStore.applyPattern.
    destruct (JS.Map_get (FileStore.patterns st) id) as [p|] eqn:E;
      [|exact Hwf].
    cbn [snd]. now apply (wf_update st id p).
  - unfold FileStore.reinforcePattern.
    destruct (JS.Map_get (FileStore.patterns st) id) as [p|] eqn:E;
      [|exact Hwf].
    now apply (wf_update st id p).
  - unfold FileStore.extractPatternFromEpisodes.
    destruct (List.length _ <? 2)%nat; [exact Hwf|].
    destruct (PatternExtractor.extractPattern _ _ _ _); [|exact Hwf].
    cbn [snd]. now apply wf_savePattern.
Qed.

Lemma wf_sessionFile (steps : list (Z * Sessions.call)) (st : FileStore.t) :
  Sessions.wfFile st -> Sessions.wfFile (Sessions.sessionFile st steps).
Proof.
  revert st. induction steps as [|step steps IH]; intros st Hwf; [exact Hwf|].
  apply IH. now apply wf_runFile.
Qed.

Lemma wf_empty : Sessions.wfFile FileStore.empty.
Proof. repeat split; constructor. Qed.

End FileInvariant.

(** X20. In the file-backed store, whatever calls are made, every
    pattern stays under its own id: from the empty store, and from any
    store whose entries are under their ids, a session leads to a store
    where the listed patterns have different ids and a pattern is listed
    exactly when [getPattern] returns it for its id. *)
Theorem file_store_keeps_ids (st : FileStore.t) (steps : list (Z * Sessions.call)) :
  Sessions.wfFile st ->
  Sessions.wfFile (Sessions.sessionFile st steps) /\
  NoDup (map Pattern.id (FileStore.getAllPatterns (Sessions.sessionFile st steps))) /\
  (forall p,
     In p (FileStore.getAllPatterns (Sessions.sessionFile st steps)) <->
     FileStore.getPattern (Sessions.sessionFile st steps) (Pattern.id p) = Some p) /\
  (forall id p,
     FileStore.getPattern (Sessions.sessionFile st steps) id = Some p ->
     Pattern.id p = id).
Proof.
  intros Hwf. pose proof (wf_sessionFile steps st Hwf) as Hwf'.
  split; [exact Hwf'|]. destruct Hwf' as [Hp _].
  destruct (keyed_values _ Pattern.id _ Hp) as [Hnd Hin].
  split; [exact Hnd|]. split; [exact Hin|].
  intros id p. now apply keyed_get.
Qed.

(** ** Invariants of the relational store *)

Section RowsInvariant.

Open Scope string_scope.

Lemma upsertPattern_ids (now h : Z) (p : Pattern.t)
  (rows : list PostgresStore.Patterns.row) :
  map PostgresStore.Patterns.id (PostgresStore.upsertPattern now h p rows)
  = if existsb (fun r => String.eqb (PostgresStore.Patterns.id r) (Pattern.id p)) rows
    then map PostgresStore.Patterns.id rows
    else (map PostgresStore.Patterns.id rows ++ [Pattern.id p])%list.
Proof.
  induction rows as [|r rows IH]; [reflexivity|].
  cbn [PostgresStore.upsertPattern existsb map].
  destruct (String.eqb (PostgresStore.Patterns.id r) (Pattern.id p)); cbn [orb map];
    [reflexivity|].
  rewrite IH. now destruct (existsb _ rows).
Qed.

Lemma upsertPattern_NoDup (now h : Z) (p : Pattern.t)
  (rows : list PostgresStore.Patterns.row) :
  NoDup (map PostgresStore.Patterns.id rows) ->
  NoDup (map PostgresStore.Patterns.id (PostgresStore.upsertPattern now h p rows)).
Proof.
  intros Hnd. rewrite upsertPattern_ids.
  destruct (existsb _ rows) eqn:E; [exact Hnd|].
  apply NoDup_app; [exact Hnd | repeat constructor; simpl; tauto|].
  intros x Hx [<- | []]. apply in_map_iff in Hx as (r & Hid & Hr).
  assert (existsb (fun r => String.eqb (PostgresStore.Patterns.id r) (Pattern.id p))
                  rows = true).
  { apply existsb_exists. exists r. split; [exact Hr | now apply String.eqb_eq]. }
  congruence.
Qed.

Lemma upsertPattern_ok (now h : Z) (p : Pattern.t)
  (rows : list PostgresStore.Patterns.row) :
  (0 <= h <= 100)%Z ->
  (String.length (Pattern.id p) <= 255)%nat ->
  (String.length (Pattern.name p) <= 255)%nat ->
  Forall Sessions.row_ok rows ->
  Forall Sessions.row_ok (PostgresStore.upsertPattern now h p rows).
Proof.
  intros Hh Hid Hname Hrows.
  induction Hrows as [|r rows Hr Hrows IH]; cbn [PostgresStore.upsertPattern].
  - constructor; [|constructor].
    unfold Sessions.row_ok. cbn. repeat split; first [assumption | lia].
  - destruct (String.eqb (PostgresStore.Patterns.id r) (Pattern.id p)) eqn:E.
    + constructor; [|exact Hrows]. destruct Hr as (_ & Hrid & _).
      unfold Sessions.row_ok. cbn. repeat split; first [assumption | lia].
    + now constructor.
Qed.

Lemma wf_savePattern_rows (now : Z) (db db' : PostgresStore.t) (p : Pattern.t) :
  Sessions.wfRows db ->
  PostgresStore.savePattern now db p = Ok db' ->
  Sessions.wfRows db'.
Proof.
  intros (H1 & H2 & H3 & H4) Hsave.
  apply savePattern_ok in Hsave as (h & Hid & Hname & _ & Hh & ->).
  repeat split; cbn [PostgresStore.patterns PostgresStore.episodes];
    try assumption.
  - now apply upsertPattern_NoDup.
  - now apply upsertPattern_ok.
Qed.

Lemma update_where_ids (f : PostgresStore.Patterns.row -> PostgresStore.Patterns.row)
  (id : string) (rows : list PostgresStore.Patterns.row) :
  (forall r, PostgresStore.Patterns.id (f r) = PostgresStore.Patterns.id r) ->
  map PostgresStore.Patterns.id (PostgresStore.update_where f id rows)
  = map PostgresStore.Patterns.id rows.
Proof.
  intros Hf. unfold PostgresStore.update_where. rewrite map_map.
  apply map_ext. intros r.
  now destruct (String.eqb (PostgresStore.Patterns.id r) id); [rewrite Hf|].
Qed.

Lemma update_where_ok (f : PostgresStore.Patterns.row -> PostgresStore.Patterns.row)
  (id : string) (rows : list PostgresStore.Patterns.row) :
  (forall r, Sessions.row_ok r -> Sessions.row_ok (f r)) ->
  Forall Sessions.row_ok rows ->
  Forall Sessions.row_ok (PostgresStore.update_where f id rows).
Proof.
  intros Hf Hrows. unfold PostgresStore.update_where. apply Forall_map.
  eapply Forall_impl; [|exact Hrows]. intros r Hr.
  destruct (String.eqb (PostgresStore.Patterns.id r) id); [now apply Hf | exact Hr].
Qed.

Lemma touchRow_ok (now : Z) (r : PostgresStore.Patterns.row) :
  Sessions.row_ok r -> Sessions.row_ok (PostgresStore.touchRow now r).
Proof. intros H. exact H. Qed.

Lemma adjustRow_ok (now : Z) (success : bool) (r : PostgresStore.Patterns.row) :
  Sessions.row_ok r -> Sessions.row_ok (PostgresStore.adjustRow now success r).
Proof.
  intros (_ & H2 & H3). unfold Sessions.row_ok. cbn.
  repeat split; first [assumption | lia].
Qed.

Lemma applyPattern_rows_state (now : Z) (db : PostgresStore.t) (id : string) :
  snd (PostgresStore.applyPattern now db id)
  = {| PostgresStore.patterns :=
         PostgresStore.update_where (PostgresStore.touchRow now) id
           (PostgresStore.patterns db);
       PostgresStore.episodes := PostgresStore.episodes db |}.
Proof.
  unfold PostgresStore.applyPattern. now destruct (filter _ _).
Qed.

Lemma upsertEpisode_short (now : Z) (e : Episode.t)
  (rows : list PostgresStore.Episodes.row) :
  (String.length (Episode.id e) <= 255)%nat ->
  Forall (fun r => (String.length (PostgresStore.Episodes.id r) <= 255)%nat) rows ->
  Forall (fun r => (String.length (PostgresStore.Episodes.id r) <= 255)%nat)
         (PostgresStore.upsertEpisode now e rows).
Proof.
  intros He Hrows.
  induction Hrows as [|r rows Hr Hrows IH]; cbn [PostgresStore.upsertEpisode].
  - constructor; [exact He | constructor].
  - destruct (String.eqb (PostgresStore.Episodes.id r) (Episode.id e));
      constructor; assumption.
Qed.

Lemma wf_saveAll (now : Z) (ps : list Pattern.t) (db db' : PostgresStore.t) :
  Sessions.wfRows db ->
  PostgresStore.saveAll now db ps = Ok db' ->
  Sessions.wfRows db'.
Proof.
  revert db. induction ps as [|p ps IH]; intros db Hwf; cbn [PostgresStore.saveAll].
  - now intros [= <-].
  - destruct (PostgresStore.savePattern now db p) as [db1|] eqn:E; [|discriminate].
    apply IH. now apply (wf_savePattern_rows now db db1 p).
Qed.

Lemma wf_runRows (db : PostgresStore.t) (step : Z * Sessions.call) :
  Sessions.wfRows db -> Sessions.wfRows (Sessions.runRows db step).
Proof.
  intros Hwf. destruct step as [now [|p|e|id|id outcome|ids name problem]];
    unfold Sessions.runRows; cbn [fst snd].
  - unfold PostgresStore.initialize.
    destruct (List.length (PostgresStore.patterns db) =? 0)%nat; [|exact Hwf].
    destruct (PostgresStore.saveAll now db (Samples.samplePatterns now))
      as [db'|] eqn:E; [|exact Hwf].
    cbn [Sessions.or_keep].
    exact (wf_saveAll now (Samples.samplePatterns now) db db' Hwf E).
  - destruct (PostgresStore.savePattern now db p) as [db'|] eqn:E; [|exact Hwf].
    cbn [Sessions.or_keep]. exact (wf_savePattern_rows now db db' p Hwf E).
  - destruct (PostgresStore.saveEpisode now db e) as [db'|] eqn:E; [|exact Hwf].
    cbn [Sessions.or_keep]. destruct Hwf as (H1 & H2 & H3 & H4).
    pose proof (@saveEpisode_primary_key now db db' e H3 E) as Hpk.
    unfold PostgresStore.saveEpisode in E.
    destruct (255 <? String.length (Episode.id e))%nat eqn:El; [discriminate|].
    injection E as <-. apply Nat.ltb_ge in El.
    repeat split; cbn [PostgresStore.patterns PostgresStore.episodes];
      try assumption.
    now apply upsertEpisode_short.
  - rewrite applyPattern_rows_state. destruct Hwf as (H1 & H2 & H3 & H4).
    repeat split; cbn [PostgresStore.patterns PostgresStore.episodes];
      try assumption.
    + now rewrite update_where_ids.
    + apply update_where_ok; [apply touchRow_ok | exact H2].
  - unfold PostgresStore.reinforcePattern. destruct Hwf as (H1 & H2 & H3 & H4).
    repeat split; cbn [PostgresStore.patterns PostgresStore.episodes];
      try assumption.
    + now rewrite update_where_ids.
    + apply update_where_ok; [apply adjustRow_ok | exact H2].
  - unfold PostgresStore.extractPatternFromEpisodes.
    destruct (List.length _ <? 2)%nat; [exact Hwf|].
    destruct (PatternExtractor.extractPattern _ _ _ _); [|exact Hwf].
    destruct (PostgresStore.savePattern now db _) as [db'|] eqn:E; [|exact Hwf].
    exact (wf_savePattern_rows now db db' _ Hwf E).
Qed.

Lemma wf_sessionRows (steps : list (Z * Sessions.call)) (db : PostgresStore.t) :
  Sessions.wfRows db -> Sessions.wfRows (Sessions.sessionRows db steps).
Proof.
  revert db. induction steps as [|step steps IH]; intros db Hwf; [exact Hwf|].
  apply IH. now apply wf_runRows.
Qed.

Lemma filter_unique (rows : list PostgresStore.Patterns.row)
  (r : PostgresStore.Patterns.row) :
  NoDup (map PostgresStore.Patterns.id rows) ->
  In r rows ->
  filter (Spec.hasId (PostgresStore.Patterns.id r)) rows = [r].
Proof.
  unfold Spec.hasId. induction rows as [|x rows IH]; [contradiction|].
  cbn [map]. intros Hnd Hin. inversion Hnd as [|y l Hnotin Hnd']; subst.
  cbn [filter]. destruct Hin as [-> | Hin].
  - rewrite String.eqb_refl. f_equal. apply filter_none. intros y Hy.
    apply String.eqb_neq. intros Heq. apply Hnotin. rewrite <- Heq.
    now apply in_map.
  - destruct (String.eqb (PostgresStore.Patterns.id x) (PostgresStore.Patterns.id r))
      eqn:E; [|now apply IH].
    apply String.eqb_eq in E. exfalso. apply Hnotin. rewrite E. now apply in_map.
Qed.

Lemma row_confidence_range (r : PostgresStore.Patterns.row) :
  Sessions.row_ok r ->
  0 <= Pattern.confidence (PostgresStore.rowToPattern r) /\
  Pattern.confidence (PostgresStore.rowToPattern r) <= 1.
Proof.
  intros ([H1 H2] & _). cbn [PostgresStore.rowToPattern Pattern.confidence].
  rewrite Zle_Qle in H1, H2. change (inject_Z 0) with 0 in H1.
  change (inject_Z 100) with 100 in H2.
  unfold Qdiv. change (/ 100) with (1 # 100). split; lra.
Qed.

End RowsInvariant.

(** X21. In the relational store, whatever calls are made, the
    constraints of the schema hold: from the empty database, and from
    any database that meets them, a session leads to a database where
    the pattern ids and the episode ids are unique, every listed pattern
    has a confidence from 0 to 1 and is what [getPattern] returns for its
    id. *)
Theorem rows_keep_constraints (db : PostgresStore.t) (steps : list (Z * Sessions.call)) :
  Sessions.wfRows db ->
  Sessions.wfRows (Sessions.sessionRows db steps) /\
  Spec.primary_key (Sessions.sessionRows db steps) /\
  NoDup (map Pattern.id (PostgresStore.getAllPatterns (Sessions.sessionRows db steps))) /\
  (forall p,
     In p (PostgresStore.getAllPatterns (Sessions.sessionRows db steps)) ->
     0 <= Pattern.confidence p /\ Pattern.confidence p <= 1 /\
     PostgresStore.getPattern (Sessions.sessionRows db steps) (Pattern.id p) = Some p).
Proof.
  intros Hwf. pose proof (wf_sessionRows steps db Hwf) as Hwf'.
  split; [exact Hwf'|]. destruct Hwf' as (H1 & H2 & H3 & H4).
  split; [exact H3|].
  set (db' := Sessions.sessionRows db steps) in *.
  assert (Hperm : Permutation (PostgresStore.patterns db')
                    (JS.sort_desc (fun r => inject_Z (PostgresStore.Patterns.confidence r))
                                  (PostgresStore.patterns db')))
    by apply sort_desc_perm.
  split.
  - unfold PostgresStore.getAllPatterns. rewrite map_map.
    change (fun x => Pattern.id (PostgresStore.rowToPattern x))
      with PostgresStore.Patterns.id.
    eapply Permutation_NoDup; [|exact H1]. now apply Permutation_map.
  - intros p Hp. unfold PostgresStore.getAllPatterns in Hp.
    apply in_map_iff in Hp as (r & <- & Hr).
    apply (Permutation_in _ (Permutation_sym Hperm)) in Hr.
    destruct (row_confidence_range r (proj1 (Forall_forall _ _) H2 r Hr)) as [Hlo Hhi].
    split; [exact Hlo|]. split; [exact Hhi|].
    rewrite getPattern_rows.
    change (Pattern.id (PostgresStore.rowToPattern r))
      with (PostgresStore.Patterns.id r).
    now rewrite (filter_unique _ r H1 Hr).
Qed.

(** ** Seeding *)

Section SeedFacts.

Open Scope string_scope.

Lemma initialize_file_nonempty (now : Z) (st : FileStore.t) :
  FileStore.patterns st <> [] -> FileStore.initialize now st = st.
Proof.
  intros H. unfold FileStore.initialize.
  destruct (FileStore.patterns st); [congruence | reflexivity].
Qed.

Lemma initialize_file_empty (now : Z) (st : FileStore.t) :
  FileStore.patterns st = [] ->
  FileStore.getAllPatterns (FileStore.initialize now st)
  = Samples.samplePatterns now /\
  FileStore.episodes (FileStore.initialize now st) = FileStore.episodes st.
Proof.
  intros H. unfold FileStore.initialize, FileStore.initializeWithSamplePatterns.
  rewrite H. split; reflexivity.
Qed.

Lemma initialize_rows_nonempty (now : Z) (db : PostgresStore.t) :
  PostgresStore.patterns db <> [] -> PostgresStore.initialize now db = Ok db.
Proof.
  intros H. unfold PostgresStore.initialize.
  destruct (PostgresStore.patterns db); [congruence | reflexivity].
Qed.

Lemma initialize_rows_empty (now : Z) (db : PostgresStore.t) :
  PostgresStore.patterns db = [] ->
  exists db',
    PostgresStore.initialize now db = Ok db' /\
    map Pattern.id (PostgresStore.getAllPatterns db')
    = ["concrete-before-abstract"; "progressive-disclosure"] /\
    map Pattern.confidence (PostgresStore.getAllPatterns db')
    = [inject_Z 90 / 100; inject_Z 85 / 100] /\
    PostgresStore.patterns db' <> [] /\
    PostgresStore.episodes db' = PostgresStore.episodes db.
Proof.
  destruct db as [ps es]. cbn [PostgresStore.patterns]. intros ->.
  eexists. split; [vm_compute; reflexivity|].
  split; [reflexivity|]. split; [reflexivity|]. split; [discriminate | reflexivity].
Qed.

End SeedFacts.

(** X22. The seed patterns are written once: [initialize] leaves a
    store that has a pattern as it is, and gives a store without
    patterns the two sample patterns and nothing else, so a second
    [initialize] changes nothing; the episodes are never touched. *)
Theorem seeding_once (now now' : Z) :
  (forall st : FileStore.t,
     (FileStore.patterns st <> [] -> FileStore.initialize now st = st) /\
     (FileStore.patterns st = [] ->
      FileStore.getAllPatterns (FileStore.initialize now st)
      = Samples.samplePatterns now) /\
     FileStore.episodes (FileStore.initialize now st) = FileStore.episodes st /\
     FileStore.initialize now' (FileStore.initialize now st)
     = FileStore.initialize now st) /\
  (forall db : PostgresStore.t,
     (PostgresStore.patterns db <> [] -> PostgresStore.initialize now db = Ok db) /\
     exists db',
       PostgresStore.initialize now db = Ok db' /\
       (PostgresStore.patterns db = [] ->
        map Pattern.id (PostgresStore.getAllPatterns db')
        = ["concrete-before-abstract"%string; "progressive-disclosure"%string] /\
        map Pattern.confidence (PostgresStore.getAllPatterns db')
        = [inject_Z 90 / 100; inject_Z 85 / 100]) /\
       PostgresStore.episodes db' = PostgresStore.episodes db /\
       PostgresStore.initialize now' db' = Ok db').
Proof.
  split.
  - intros st. split; [apply initialize_file_nonempty|].
    split; [apply initialize_file_empty|].
    destruct (FileStore.patterns st) as [|entry ps] eqn:E.
    + destruct (initialize_file_empty now st E) as [Hall Heps].
      split; [exact Heps|]. apply initialize_file_nonempty.
      intros Hnil. unfold FileStore.getAllPatterns in Hall. rewrite Hnil in Hall.
      discriminate.
    + assert (Hne : FileStore.patterns st <> []) by (rewrite E; discriminate).
      rewrite (initialize_file_nonempty now st Hne).
      split; [reflexivity | now apply initialize_file_nonempty].
  - intros db. split; [apply initialize_rows_nonempty|].
    destruct (PostgresStore.patterns db) as [|r rows] eqn:E.
    + destruct (initialize_rows_empty now db E) as (db' & Hinit & Hids & Hconf & Hne & Heps).
      exists db'. split; [exact Hinit|]. split; [now intros _|].
      split; [exact Heps | now apply initialize_rows_nonempty].
    + assert (Hne : PostgresStore.patterns db <> []) by (rewrite E; discriminate).
      exists db. split; [now apply initialize_rows_nonempty|].
      split; [discriminate|]. split; [reflexivity | now apply initialize_rows_nonempty].
Qed.

(** ** Extraction from two or more episodes *)

Section ExtractionFacts.




Lemma extractPattern_fields (now : Z) (episodes : list Episode.t)
  (name problemStatement : string) :
  (2 <= List.length episodes)%nat ->
  exists p,
    PatternExtractor.extractPattern now episodes name problemStatement = Some p /\
    Pattern.id p = PatternExtractor.generatePatternId name /\
    Pattern.name p = name /\
    Pattern.usageCount p = 0%Z /\
    Pattern.lastUsedAt p = None /\
    0 <= Pattern.confidence p /\ Pattern.confidence p <= 0.9.
Proof.
  intros Hlen. unfold PatternExtractor.extractPattern.
  destruct (List.length episodes <? 2)%nat eqn:E.
  { apply Nat.ltb_lt in E. lia. }
  eexists. split; [reflexivity|].
  cbn [Pattern.id Pattern.name Pattern.usageCount Pattern.lastUsedAt
       Pattern.confidence].
  repeat (split; [reflexivity|]).
  pose proof (successRate_range episodes ltac:(lia)) as Hrate.
  destruct (Math_min_cases 0.9 (PatternExtractor.successRate episodes))
    as [[H ->] | [H ->]]; split; lra.
Qed.

Lemma leadsTo_links (p : Pattern.t) (others : list Pattern.t)
  (r : PatternRelation) :
  In r (map FileStore.leadsTo (PatternExtractor.findRelatedPatterns p others)) ->
  Extraction.links
    (FileStore.withRelations p
       (map FileStore.leadsTo (PatternExtractor.findRelatedPatterns p others)))
    others r.
Proof.
  intros Hin. apply in_map_iff in Hin as (id & <- & Hid).
  apply related_spec in Hid as (other & Hother & Hsame & Hne & Hov).
  unfold Extraction.links, FileStore.leadsTo.
  cbn [type strength patternId FileStore.withRelations Pattern.id].
  split; [reflexivity|]. split; [reflexivity|]. split; [congruence|].
  exists other. split; [exact Hother|]. split; [exact Hsame|]. exact Hov.
Qed.

End ExtractionFacts.

(** X23. File-backed store: when at least two of the supplied ids are
    keys of episodes, [extractPatternFromEpisodes] returns a pattern
    and saves that pattern under the id generated from the name,
    replacing a pattern that had this id; the pattern is unused, every
    relation of it is a [leads_to] of strength 0.5 to another stored
    pattern that shares a context tag with it, every other pattern and
    every episode stays as it was. *)
Theorem extraction_file_saves (now : Z) (st : FileStore.t) (ids : list string)
  (name problemStatement : string) :
  (2 <= List.length (Extraction.found st ids))%nat ->
  exists p,
    FileStore.extractPatternFromEpisodes now st ids name problemStatement
    = (Some p, FileStore.savePattern st p) /\
    Pattern.id p = PatternExtractor.generatePatternId name /\
    Pattern.name p = name /\
    Pattern.usageCount p = 0%Z /\
    Pattern.lastUsedAt p = None /\
    (forall r, In r (Pattern.relations p) ->
               Extraction.links p (FileStore.getAllPatterns st) r) /\
    FileStore.getPattern (FileStore.savePattern st p)
      (PatternExtractor.generatePatternId name) = Some p /\
    (forall id', id' <> PatternExtractor.generatePatternId name ->
       FileStore.getPattern (FileStore.savePattern st p) id'
       = FileStore.getPattern st id') /\
    FileStore.episodes (FileStore.savePattern st p) = FileStore.episodes st.
Proof.
  intros Hlen. unfold Extraction.found in Hlen.
  destruct (extractPattern_fields now (FileStore.lookupAll (FileStore.episodes st) ids)
              name problemStatement Hlen)
    as (p & Hp & Hid & Hname & Huse & Hlast & _).
  unfold FileStore.extractPatternFromEpisodes.
  destruct (List.length (FileStore.lookupAll (FileStore.episodes st) ids) <? 2)%nat eqn:E.
  { apply Nat.ltb_lt in E. lia. }
  rewrite Hp. cbv zeta.
  eexists. split; [reflexivity|].
  cbn [FileStore.withRelations Pattern.id Pattern.name Pattern.usageCount
       Pattern.lastUsedAt Pattern.relations].
  split; [exact Hid|]. split; [exact Hname|]. split; [exact Huse|].
  split; [exact Hlast|]. split.
  { intros r Hr. now apply leadsTo_links. }
  unfold FileStore.getPattern, FileStore.savePattern.
  cbn [FileStore.patterns FileStore.episodes FileStore.withRelations Pattern.id].
  rewrite Hid. split; [apply Map_get_set_same|]. split; [|reflexivity].
  intros id' Hne. now apply Map_get_set_other.
Qed.


(** ** Saving an episode in the relational store *)

Section EpisodeRowFacts.






End EpisodeRowFacts.


(** ** The further properties on concrete stores *)

Section SessionInstances.

Open Scope string_scope.


Lemma wfRows_empty : Sessions.wfRows PostgresStore.empty.
Proof.
  unfold Sessions.wfRows, PostgresStore.empty.
  cbn [PostgresStore.patterns PostgresStore.episodes map].
  repeat split; constructor.
Qed.

(** X2 on the seeded database: the first seed pattern saved again at
    time 7 keeps the creation time 0 of its row. *)
Lemma rows_save_then_get_reseeded :
  exists p',
    PostgresStore.getPattern Scenario.reseededRows "progressive-disclosure"
    = Some p' /\
    Pattern.name p' = "Progressive Disclosure" /\
    Pattern.createdAt p' = 0%Z /\
    - (1 # 200) <= Pattern.confidence p' - 0.85 /\
    Pattern.confidence p' - 0.85 <= 1 # 200 /\
    PostgresStore.getPattern Scenario.reseededRows "concrete-before-abstract"
    = PostgresStore.getPattern Examples.seededRows "concrete-before-abstract".
Proof.
  destruct (rows_save_then_get 7 Examples.seededRows Scenario.reseededRows
              (Samples.progressive_disclosure 7))
    as (p' & Hget & _ & Hname & _ & _ & _ & _ & _ & _ & _ & Hcreated & Hlo & Hhi
        & Hother & _);
    [vm_compute; reflexivity|].
  exists p'. split; [exact Hget|]. split; [exact Hname|].
  split; [exact Hcreated|]. split; [exact Hlo|]. split; [exact Hhi|].
  apply Hother. discriminate.
Defined.

(** X10 on an upper-case query. *)
Lemma searches_ignore_case_recursion :
  (forall st : FileStore.t,
     FileStore.searchPatterns st "RECURSION" = FileStore.searchPatterns st "recursion" /\
     forall limit,
       FileStore.findSimilarEpisodes st "RECURSION" limit
       = FileStore.findSimilarEpisodes st "recursion" limit) /\
  (forall db : PostgresStore.t,
     PostgresStore.searchPatterns db "RECURSION"
     = PostgresStore.searchPatterns db "recursion" /\
     forall limit,
       PostgresStore.findSimilarEpisodes db "RECURSION" limit
       = PostgresStore.findSimilarEpisodes db "recursion" limit) /\
  JS.toLowerCase (JS.toLowerCase "RECURSION") = JS.toLowerCase "RECURSION".
Proof.
  apply (searches_ignore_case "RECURSION" "recursion"). reflexivity.
Defined.


(** X15 on the two debugging episodes. *)
Lemma extractPattern_shape_debugging :
  exists p,
    PatternExtractor.extractPattern 0 [Examples.debug1; Examples.debug2]
      "Debugging Errors" "Errors from missing values" = Some p /\
    Pattern.id p = "debugging-errors" /\
    Pattern.usageCount p = 0%Z /\
    Pattern.relations p = [] /\
    List.length (Pattern.examples p) = 2%nat /\
    0 <= Pattern.confidence p /\ Pattern.confidence p <= 0.9.
Proof.
  destruct (extractPattern_shape 0 [Examples.debug1; Examples.debug2]
              "Debugging Errors" "Errors from missing values")
    as (p & Hp & Hid & _ & _ & Huse & Hrel & _ & _ & _ & Hlen & _ & Hlo & Hhi).
  - cbn. lia.
  - exists p. split; [exact Hp|]. split; [rewrite Hid; vm_compute; reflexivity|].
    split; [exact Huse|]. split; [exact Hrel|]. split; [exact Hlen|].
    split; [exact Hlo | exact Hhi].
Defined.


(** X18 on the session's store: the query is the context of the first
    episode in capitals. *)
Lemma exact_match_recursion :
  (forall e', FileStore.score "USER ASKED ABOUT RECURSION" e'
              <= Ranking.best "USER ASKED ABOUT RECURSION") /\
  FileStore.score "USER ASKED ABOUT RECURSION" Examples.recursion
  == Ranking.best "USER ASKED ABOUT RECURSION" /\
  exists h rest,
    FileStore.findSimilarEpisodes Scenario.debugging "USER ASKED ABOUT RECURSION" 5
    = h :: rest /\
    FileStore.score "USER ASKED ABOUT RECURSION" h
    == FileStore.score "USER ASKED ABOUT RECURSION" Examples.recursion.
Proof.
  apply (exact_match_ranks_first Scenario.debugging "USER ASKED ABOUT RECURSION"
           Examples.recursion 5).
  - vm_compute. left. reflexivity.
  - vm_compute. reflexivity.
  - lia.
Defined.


(** X20 on the session from the empty store. *)
Lemma file_store_keeps_ids_session :
  Sessions.wfFile Scenario.debugging /\
  NoDup (map Pattern.id (FileStore.getAllPatterns Scenario.debugging)) /\
  (forall p,
     In p (FileStore.getAllPatterns Scenario.debugging) <->
     FileStore.getPattern Scenario.debugging (Pattern.id p) = Some p) /\
  (forall id p,
     FileStore.getPattern Scenario.debugging id = Some p -> Pattern.id p = id).
Proof.
  apply (file_store_keeps_ids FileStore.empty Scenario.calls). apply wf_empty.
Defined.

(** X21 on the session from the empty database. *)
Lemma rows_keep_constraints_session :
  Sessions.wfRows Scenario.debuggingRows /\
  Spec.primary_key Scenario.debuggingRows /\
  NoDup (map Pattern.id (PostgresStore.getAllPatterns Scenario.debuggingRows)) /\
  (forall p,
     In p (PostgresStore.getAllPatterns Scenario.debuggingRows) ->
     0 <= Pattern.confidence p /\ Pattern.confidence p <= 1 /\
     PostgresStore.getPattern Scenario.debuggingRows (Pattern.id p) = Some p).
Proof.
  apply (rows_keep_constraints PostgresStore.empty Scenario.calls).
  apply wfRows_empty.
Defined.

(** X23 on the session's store: the third id is no key, the two
    debugging episodes are found. *)
Lemma extraction_file_debugging :
  exists p,
    FileStore.extractPatternFromEpisodes 6 Scenario.debugging Scenario.debugIds
      "Debugging Errors" "Errors from missing values"
    = (Some p, FileStore.savePattern Scenario.debugging p) /\
    Pattern.id p = "debugging-errors" /\
    (forall r, In r (Pattern.relations p) ->
               Extraction.links p (FileStore.getAllPatterns Scenario.debugging) r) /\
    FileStore.getPattern (FileStore.savePattern Scenario.debugging p)
      "debugging-errors" = Some p /\
    FileStore.episodes (FileStore.savePattern Scenario.debugging p)
    = FileStore.episodes Scenario.debugging.
Proof.
  destruct (extraction_file_saves 6 Scenario.debugging Scenario.debugIds
              "Debugging Errors" "Errors from missing values")
    as (p & Hrun & Hid & _ & _ & _ & Hrel & Hget & _ & Heps).
  - vm_compute. lia.
  - exists p. split; [exact Hrun|]. split; [rewrite Hid; vm_compute; reflexivity|].
    split; [exact Hrel|]. split; [exact Hget | exact Heps].
Defined.


(** X4 on the seeded stores: a success reported for the first seed
    pattern. *)
Lemma reinforcePattern_frame_seeded :
  (exists p',
     FileStore.getPattern
       (FileStore.reinforcePattern Examples.seeded "progressive-disclosure" true)
       "progressive-disclosure" = Some p' /\
     Frame.same_but_confidence (Samples.progressive_disclosure 0) p') /\
  (exists p',
     PostgresStore.getPattern
       (PostgresStore.reinforcePattern 1 Examples.seededRows
          "progressive-disclosure" true)
       "progressive-disclosure" = Some p' /\
     Pattern.name p' = "Progressive Disclosure" /\
     Pattern.usageCount p' = 0%Z).
Proof.
  destruct (reinforcePattern_frame "progressive-disclosure" true) as [Hfile Hrows].
  split.
  - destruct (Hfile Examples.seeded (Samples.progressive_disclosure 0) eq_refl)
      as (p' & Hget & Hsame & _).
    exists p'. split; [exact Hget | exact Hsame].
  - destruct (PostgresStore.getPattern Examples.seededRows "progressive-disclosure")
      as [p|] eqn:E; [|vm_compute in E; discriminate].
    destruct (Hrows 1%Z Examples.seededRows p E)
      as (p' & Hget & (_ & Hname & _ & _ & _ & _ & _ & Huse & _) & _).
    exists p'. split; [exact Hget|]. rewrite Hname, Huse.
    vm_compute in E. injection E as <-. split; reflexivity.
Defined.




End SessionInstances.
